(** * Satellite Tracker: a shallow embedding of [models.py] and [simulation.py]

    Positions, speeds, angles and fuel are Python floats; they are modelled
    as real numbers.  Every Python comparison [a < b] or [a <= b] on floats
    becomes the boolean [rlt a b] or [rle a b].  Randomness ([random.random],
    [random.uniform], [random.choice], [random.choices]) is passed in as
    explicit draws, as the callers of the pseudo-random source see them. *)

From Stdlib Require Import Reals Lra List String Arith Lia.
From Stdlib Require Import DecimalString.
Import ListNotations.

Open Scope bool_scope.
Open Scope R_scope.

(** Boolean float comparisons. *)
Definition rlt (a b : R) : bool := if Rlt_dec a b then true else false.
Definition rle (a b : R) : bool := if Rle_dec a b then true else false.

(** [str(n)] for a Python [int]. *)
Definition str_of_nat (n : nat) : string :=
  NilZero.string_of_uint (Nat.to_uint n).

(** [math.radians]. *)
Definition radians (a : R) : R := a * PI / 180.

(** Python's float [a % m] for a positive modulus: [a - m * floor (a / m)]. *)
Definition py_mod (a m : R) : R := a - m * IZR (Int_part (a / m)).

(** Python's [min] and [max] on two floats: [min(a, b)] returns [a] unless
    [b < a]; [max(a, b)] returns [a] unless [a < b]. *)
Definition py_min (a b : R) : R := if rlt b a then b else a.
Definition py_max (a b : R) : R := if rlt a b then b else a.

(** ** models.py *)

Module Models.

(** [class CelestialObject]: the shared fields. *)
Record CelestialObject := mkObject {
  name : string;
  x : R;
  y : R;
  speed : R;
  angle : R;
  active : bool
}.

(** [CelestialObject.__init__]: the angle is stored as given. *)
Definition new_object (n : string) (x0 y0 sp an : R) : CelestialObject :=
  mkObject n x0 y0 sp an true.

Definition set_pos (o : CelestialObject) (x1 y1 : R) : CelestialObject :=
  mkObject (name o) x1 y1 (speed o) (angle o) (active o).

Definition set_speed (o : CelestialObject) (sp : R) : CelestialObject :=
  mkObject (name o) (x o) (y o) sp (angle o) (active o).

Definition set_angle (o : CelestialObject) (an : R) : CelestialObject :=
  mkObject (name o) (x o) (y o) (speed o) an (active o).

(** [CelestialObject.deactivate]. *)
Definition deactivate (o : CelestialObject) : CelestialObject :=
  mkObject (name o) (x o) (y o) (speed o) (angle o) false.

(** [CelestialObject.update]. *)
Definition obj_update (o : CelestialObject) : CelestialObject :=
  if negb (active o) then o
  else
    let rad := radians (angle o) in
    set_pos o (x o + speed o * cos rad) (y o + speed o * sin rad).

(** [CelestialObject.distance_to]: the coordinates are added. *)
Definition distance_to (a b : CelestialObject) : R :=
  sqrt ((x a + x b) ^ 2 + (y a + y b) ^ 2).

(** Satellite status strings ["nominal"], ["warning"], ["critical"],
    ["deorbited"]. *)
Inductive Status := nominal | warning | critical | deorbited.

(** [class Satellite(CelestialObject)]. *)
Record Satellite := mkSatellite {
  sat_obj : CelestialObject;
  fuel : R;
  status : Status
}.

(** [Satellite.__init__]: [fuel] defaults to [100.0]; the status is set to
    ["nominal"] whatever the fuel. *)
Definition new_satellite (n : string) (x0 y0 sp an f : R) : Satellite :=
  mkSatellite (new_object n x0 y0 sp an) f nominal.

Definition set_obj (s : Satellite) (o : CelestialObject) : Satellite :=
  mkSatellite o (fuel s) (status s).

Definition set_fuel (s : Satellite) (f : R) : Satellite :=
  mkSatellite (sat_obj s) f (status s).

(** [Satellite._update_status]. *)
Definition update_status (s : Satellite) : Satellite :=
  if rle (fuel s) 0 then mkSatellite (sat_obj s) 0 critical
  else if rlt (fuel s) 20 then mkSatellite (sat_obj s) (fuel s) warning
  else mkSatellite (sat_obj s) (fuel s) nominal.

(** [Satellite.change_angle]. *)
Definition change_angle (s : Satellite) (new_angle : R) : Satellite :=
  if rle (fuel s) 0 then s
  else
    let s1 := set_obj s (set_angle (sat_obj s) (py_mod new_angle 360)) in
    let s2 := set_fuel s1 (fuel s1 - 2) in
    update_status s2.

(** [Satellite.change_speed]. *)
Definition change_speed (s : Satellite) (new_speed : R) : Satellite :=
  if rle (fuel s) 0 then s
  else
    let s1 := set_obj s (set_speed (sat_obj s) (py_max 0.5 (py_min new_speed 5))) in
    let s2 := set_fuel s1 (fuel s1 - 1.5) in
    update_status s2.

(** [Satellite.deorbit]: the new satellite and the returned boolean. *)
Definition deorbit (s : Satellite) : Satellite * bool :=
  if negb (rlt (fuel s) 5) then
    (mkSatellite (deactivate (sat_obj s)) (fuel s - 5) deorbited, true)
  else (s, false).

(** [Satellite.update]: the base update, then the passive drain while the
    satellite is still active. *)
Definition sat_update (s : Satellite) : Satellite :=
  let s1 := set_obj s (obj_update (sat_obj s)) in
  if active (sat_obj s1) then update_status (set_fuel s1 (fuel s1 - 0.1))
  else s1.

(** [class Debris(CelestialObject)]. *)
Record Debris := mkDebris {
  deb_obj : CelestialObject;
  size : string
}.

(** [Debris.danger_radius]: [radii.get(self._size, 15)]. *)
Definition danger_radius (d : Debris) : R :=
  if String.eqb (size d) "small" then 15
  else if String.eqb (size d) "medium" then 25
  else if String.eqb (size d) "large" then 40
  else 15.

(** [Debris.update] is the inherited [CelestialObject.update]. *)
Definition deb_update (d : Debris) : Debris :=
  mkDebris (obj_update (deb_obj d)) (size d).

Definition deb_deactivate (d : Debris) : Debris :=
  mkDebris (deactivate (deb_obj d)) (size d).

(** [class DebrisField]. *)
Record DebrisField := mkField {
  field_width : R;
  field_height : R;
  counter : nat
}.

Definition DEBRIS_NAMES : list string :=
  ["Alpha"; "Beta"; "Gamma"; "Delta"; "Epsilon";
   "Zeta"; "Eta"; "Theta"; "Iota"; "Kappa"]%string.

Inductive Side := top | bottom | left | right.

(** The values drawn from [random] by one call of [generate]:
    [random.choice] of the side, one [random.uniform] for the free
    coordinate, one for the angle, one [random.random] for
    [random.choices] of the size, one [random.uniform] for the speed and
    the index picked by [random.choice(DEBRIS_NAMES)].  A [random.uniform(a,
    b)] is [a + (b - a) * u] with [u] from [random.random()]. *)
Record GenDraws := mkDraws {
  g_side : Side;
  g_pos : R;
  g_angle : R;
  g_size : R;
  g_speed : R;
  g_name : nat
}.

Definition unit_draw (u : R) : Prop := 0 <= u < 1.

Definition valid_draws (g : GenDraws) : Prop :=
  unit_draw (g_pos g) /\ unit_draw (g_angle g) /\ unit_draw (g_size g) /\
  unit_draw (g_speed g) /\ (g_name g < List.length DEBRIS_NAMES)%nat.

(** [random.uniform(a, b)]. *)
Definition uniform (a b u : R) : R := a + (b - a) * u.

(** [random.choices(["small", "medium", "large"], weights=[60, 30, 10])[0]]:
    the cumulative weights are [60, 90, 100] and the index is the
    [bisect_right] of [random() * 100]. *)
Definition choose_size (u : R) : string :=
  let t := u * 100 in
  if rlt t 60 then "small"%string
  else if rlt t 90 then "medium"%string
  else "large"%string.

(** [DebrisField.generate]: the new debris and the field with its counter
    incremented. *)
Definition generate (f : DebrisField) (g : GenDraws) : Debris * DebrisField :=
  let '(x0, y0, an) :=
    match g_side g with
    | top => (uniform 0 (field_width f) (g_pos g), 0, uniform 150 210 (g_angle g))
    | bottom => (uniform 0 (field_width f) (g_pos g), field_height f,
                 uniform (-30) 30 (g_angle g))
    | left => (0, uniform 0 (field_height f) (g_pos g), uniform (-45) 45 (g_angle g))
    | right => (field_width f, uniform 0 (field_height f) (g_pos g),
                uniform 135 225 (g_angle g))
    end in
  let sz := choose_size (g_size g) in
  let sp := uniform 1 3 (g_speed g) in
  let n := (List.nth (g_name g) DEBRIS_NAMES "Alpha" ++ "-" ++ str_of_nat (counter f))%string in
  (mkDebris (new_object n x0 y0 sp an) sz,
   mkField (field_width f) (field_height f) (S (counter f))).

End Models.

(** ** simulation.py *)

Module Sim.
Import Models.

(** An argument of [CollisionDetector.check_collision]: the [isinstance]
    tests distinguish satellites from debris. *)
Inductive Entity := ESat (s : Satellite) | EDeb (d : Debris).

Definition entity_obj (e : Entity) : CelestialObject :=
  match e with ESat s => sat_obj s | EDeb d => deb_obj d end.

Definition SATELLITE_RADIUS : R := 20.

(** [CollisionDetector.check_collision]. *)
Definition check_collision (obj1 obj2 : Entity) : bool :=
  let distance := distance_to (entity_obj obj1) (entity_obj obj2) in
  match obj1, obj2 with
  | ESat _, EDeb d => rlt distance (SATELLITE_RADIUS + danger_radius d)
  | EDeb d, ESat _ => rlt distance (SATELLITE_RADIUS + danger_radius d)
  | ESat _, ESat _ => rlt distance (SATELLITE_RADIUS * 2)
  | _, _ => false
  end.

(** [CollisionDetector.check_proximity_warning]; the default
    [warning_distance] is [80.0]. *)
Definition check_proximity_warning (sat : Satellite) (obj : Entity)
    (warning_distance : R) : bool :=
  rlt (distance_to (sat_obj sat) (entity_obj obj)) warning_distance.

Definition AREA_WIDTH : R := 800.
Definition AREA_HEIGHT : R := 600.

(** [class Simulation].  The satellites and debris are the objects of the
    two lists; a Python reference to one of them is its index in its list. *)
Record Simulation := mkSim {
  satellites : list Satellite;
  debris_list : list Debris;
  debris_field : DebrisField;
  tick_count : nat;
  score : nat;
  collisions : nat;
  deorbited : nat;
  game_over : bool;
  events : list string
}.

(** [Simulation.__init__]. *)
Definition init : Simulation :=
  mkSim [] [] (mkField AREA_WIDTH AREA_HEIGHT 0) 0 0 0 0 false [].

Definition set_satellites (s : Simulation) (l : list Satellite) : Simulation :=
  mkSim l (debris_list s) (debris_field s) (tick_count s) (score s)
    (collisions s) (deorbited s) (game_over s) (events s).

Definition set_debris (s : Simulation) (l : list Debris) : Simulation :=
  mkSim (satellites s) l (debris_field s) (tick_count s) (score s)
    (collisions s) (deorbited s) (game_over s) (events s).

Definition set_field (s : Simulation) (f : DebrisField) : Simulation :=
  mkSim (satellites s) (debris_list s) f (tick_count s) (score s)
    (collisions s) (deorbited s) (game_over s) (events s).

Definition set_tick_count (s : Simulation) (n : nat) : Simulation :=
  mkSim (satellites s) (debris_list s) (debris_field s) n (score s)
    (collisions s) (deorbited s) (game_over s) (events s).

Definition set_score (s : Simulation) (n : nat) : Simulation :=
  mkSim (satellites s) (debris_list s) (debris_field s) (tick_count s) n
    (collisions s) (deorbited s) (game_over s) (events s).

Definition set_collisions (s : Simulation) (n : nat) : Simulation :=
  mkSim (satellites s) (debris_list s) (debris_field s) (tick_count s) (score s)
    n (deorbited s) (game_over s) (events s).

Definition set_game_over (s : Simulation) (b : bool) : Simulation :=
  mkSim (satellites s) (debris_list s) (debris_field s) (tick_count s) (score s)
    (collisions s) (deorbited s) b (events s).

Definition set_events (s : Simulation) (l : list string) : Simulation :=
  mkSim (satellites s) (debris_list s) (debris_field s) (tick_count s) (score s)
    (collisions s) (deorbited s) (game_over s) l.

(** [self._events.append(m)]. *)
Definition append_event (s : Simulation) (m : string) : Simulation :=
  set_events s (events s ++ [m]).

(** The event strings. *)
Definition collision_msg (sat deb : string) : string :=
  ("COLLISION : " ++ sat ++ " touché par " ++ deb ++ " !")%string.
Definition alert_msg (deb sat : string) : string :=
  ("ALERTE : " ++ deb ++ " proche de " ++ sat)%string.
Definition pair_msg (a b : string) : string :=
  ("COLLISION : " ++ a ++ " et " ++ b ++ " !")%string.
Definition deorbit_ok_msg (n : string) : string :=
  (n ++ " désorbité avec succès !")%string.
Definition deorbit_fail_msg (n : string) : string :=
  (n ++ " : carburant insuffisant pour désorbiter")%string.

(** A method call on the object at index [i] of a list. *)
Fixpoint update_nth {A} (i : nat) (f : A -> A) (l : list A) : list A :=
  match l, i with
  | [], _ => []
  | a :: l', O => f a :: l'
  | a :: l', S i' => a :: update_nth i' f l'
  end.

(** The indices, counted from [k], of the elements satisfying [p]: a
    list comprehension [[o for o in l if p(o)]] of references. *)
Fixpoint indices_from {A} (p : A -> bool) (k : nat) (l : list A) : list nat :=
  match l with
  | [] => []
  | a :: l' => if p a then k :: indices_from p (S k) l' else indices_from p (S k) l'
  end.

Definition sat_active (s : Satellite) : bool := active (sat_obj s).
Definition deb_active (d : Debris) : bool := active (deb_obj d).
Definition sat_deactivate (s : Satellite) : Satellite := set_obj s (deactivate (sat_obj s)).
Definition sat_name (s : Satellite) : string := name (sat_obj s).
Definition deb_name (d : Debris) : string := name (deb_obj d).

(** One iteration of the satellite--debris loop of [_check_all_collisions],
    on the satellite at index [si] and the debris at index [di]. *)
Definition sat_debris_step (st : Simulation) (si di : nat) : Simulation :=
  match nth_error (satellites st) si, nth_error (debris_list st) di with
  | Some sat, Some deb =>
      if check_collision (ESat sat) (EDeb deb) then
        let st1 := set_satellites st (update_nth si sat_deactivate (satellites st)) in
        let st2 := set_debris st1 (update_nth di deb_deactivate (debris_list st1)) in
        let st3 := set_collisions st2 (collisions st2 + 1) in
        append_event st3 (collision_msg (sat_name sat) (deb_name deb))
      else if check_proximity_warning sat (EDeb deb) 80 then
        append_event st (alert_msg (deb_name deb) (sat_name sat))
      else st
  | _, _ => st
  end.

(** One iteration of the satellite--satellite loop, on the satellites at
    indices [si] and [sj] of [self._satellites]. *)
Definition sat_pair_step (st : Simulation) (si sj : nat) : Simulation :=
  match nth_error (satellites st) si, nth_error (satellites st) sj with
  | Some a, Some b =>
      if check_collision (ESat a) (ESat b) then
        let st1 := set_satellites st
                     (update_nth sj sat_deactivate
                        (update_nth si sat_deactivate (satellites st))) in
        let st2 := set_collisions st1 (collisions st1 + 2) in
        append_event st2 (pair_msg (sat_name a) (sat_name b))
      else st
  | _, _ => st
  end.

(** [Simulation._check_all_collisions]: both snapshots are taken once, at
    the start. *)
Definition check_all_collisions (st : Simulation) : Simulation :=
  let active_sats := indices_from sat_active 0 (satellites st) in
  let active_debris := indices_from deb_active 0 (debris_list st) in
  let st1 :=
    fold_left (fun st' si =>
      fold_left (fun st'' di => sat_debris_step st'' si di) active_debris st')
      active_sats st in
  let n := List.length active_sats in
  fold_left (fun st' i =>
    fold_left (fun st'' j =>
      sat_pair_step st'' (List.nth i active_sats O) (List.nth j active_sats O))
      (seq (S i) (n - S i)) st')
    (seq 0 n) st1.

(** [Simulation._cleanup_out_of_bounds]. *)
Definition cleanup_out_of_bounds (st : Simulation) : Simulation :=
  let margin := 50 in
  set_debris st
    (filter (fun d =>
       deb_active d &&
       (rlt (- margin) (x (deb_obj d)) && rlt (x (deb_obj d)) (AREA_WIDTH + margin)) &&
       (rlt (- margin) (y (deb_obj d)) && rlt (y (deb_obj d)) (AREA_HEIGHT + margin)))%bool
     (debris_list st)).

Definition count_active (l : list Satellite) : nat :=
  List.length (filter sat_active l).

(** The spawn chance [min(0.05 + tick_count * 0.0005, 0.3)]. *)
Definition spawn_chance (n : nat) : R := py_min (0.05 + INR n * 0.0005) 0.3.

(** The first steps of [Simulation.tick]: [sat.update()] for every
    satellite, then [deb.update()] for every debris. *)
Definition update_all (s : Simulation) : Simulation :=
  let s1 := set_satellites s (map sat_update (satellites s)) in
  set_debris s1 (map deb_update (debris_list s1)).

(** The spawn step of [Simulation.tick], with [rnd] the value of
    [random.random()] and [g] the draws of [DebrisField.generate]. *)
Definition maybe_spawn (s : Simulation) (rnd : R) (g : GenDraws) : Simulation :=
  if rlt rnd (spawn_chance (tick_count s)) then
    let '(d, f) := generate (debris_field s) g in
    set_field (set_debris s (debris_list s ++ [d])) f
  else s.

(** The last steps of [Simulation.tick]: the score and the game-over test. *)
Definition score_and_game_over (s : Simulation) : Simulation :=
  let n := count_active (satellites s) in
  let s1 := set_score s (score s + n) in
  if Nat.eqb n 0 && Nat.ltb 10 (tick_count s1) then set_game_over s1 true
  else s1.

(** [Simulation.tick]. *)
Definition tick (s : Simulation) (rnd : R) (g : GenDraws) : Simulation :=
  if game_over s then s
  else
    let s1 := set_tick_count s (S (tick_count s)) in
    let s2 := update_all s1 in
    let s3 := maybe_spawn s2 rnd g in
    let s4 := check_all_collisions s3 in
    let s5 := cleanup_out_of_bounds s4 in
    score_and_game_over s5.

(** [Simulation.add_satellite]. *)
Definition add_satellite (s : Simulation) (sat : Satellite) : Simulation :=
  set_satellites s (satellites s ++ [sat]).

(** [Simulation.pop_events]: the events and the emptied simulation. *)
Definition pop_events (s : Simulation) : list string * Simulation :=
  (events s, set_events s []).

(** The loop of [Simulation.deorbit_satellite], from index [k] of the
    satellite list [l] (a suffix of [satellites st]). *)
Fixpoint deorbit_loop (nm : string) (k : nat) (l : list Satellite)
    (st : Simulation) : Simulation * bool :=
  match l with
  | [] => (st, false)
  | sat :: l' =>
      if String.eqb (sat_name sat) nm && sat_active sat then
        let '(sat', ok) := deorbit sat in
        let st1 := set_satellites st (update_nth k (fun _ => sat') (satellites st)) in
        if ok then
          (append_event (set_collisions st1 (collisions st1 + 1))
             (deorbit_ok_msg (sat_name sat')), true)
        else (append_event st1 (deorbit_fail_msg (sat_name sat')), false)
      else deorbit_loop nm (S k) l' st
  end.

(** [Simulation.deorbit_satellite]. *)
Definition deorbit_satellite (s : Simulation) (nm : string) : Simulation * bool :=
  deorbit_loop nm 0 (satellites s) s.

(** [Simulation.get_stats]. *)
Record Stats := mkStats {
  stat_tick : nat;
  stat_score : nat;
  satellites_actifs : nat;
  stat_collisions : nat;
  desorbites : nat;
  debris_en_zone : nat
}.

Definition get_stats (s : Simulation) : Stats :=
  mkStats (tick_count s) (score s) (count_active (satellites s)) (collisions s)
    (deorbited s) (List.length (debris_list s)).

(** The satellite mutators, called by the window on the objects of
    [Simulation.satellites]: [change_angle] and [change_speed] on the
    satellite at index [i]. *)
Definition change_angle_at (s : Simulation) (i : nat) (a : R) : Simulation :=
  set_satellites s (update_nth i (fun sat => change_angle sat a) (satellites s)).

Definition change_speed_at (s : Simulation) (i : nat) (v : R) : Simulation :=
  set_satellites s (update_nth i (fun sat => change_speed sat v) (satellites s)).

(** The states reachable from [Simulation()] through the public operations;
    the random draws lie in [[0, 1)]. *)
Inductive reachable : Simulation -> Prop :=
| r_init : reachable init
| r_add : forall s n x0 y0 sp an f,
    reachable s -> reachable (add_satellite s (new_satellite n x0 y0 sp an f))
| r_tick : forall s rnd g,
    reachable s -> unit_draw rnd -> valid_draws g -> reachable (tick s rnd g)
| r_deorbit : forall s nm, reachable s -> reachable (fst (deorbit_satellite s nm))
| r_pop : forall s, reachable s -> reachable (snd (pop_events s))
| r_angle : forall s i a, reachable s -> reachable (change_angle_at s i a)
| r_speed : forall s i v, reachable s -> reachable (change_speed_at s i v).

End Sim.

(** ** main_window.py *)

Module MainWindow.
Import Models Sim.

(** [SpaceTrackerWindow._change_angle] and [_change_speed]: the mutator is
    called on every satellite with the selected name that is still
    active. *)
Definition ui_change_angle_sat (nm : string) (a : R) (sat : Satellite) : Satellite :=
  if String.eqb (sat_name sat) nm && sat_active sat then change_angle sat a else sat.

Definition ui_change_speed_sat (nm : string) (v : R) (sat : Satellite) : Satellite :=
  if String.eqb (sat_name sat) nm && sat_active sat then change_speed sat v else sat.

Definition ui_change_angle (s : Simulation) (nm : string) (a : R) : Simulation :=
  set_satellites s (map (ui_change_angle_sat nm a) (satellites s)).

Definition ui_change_speed (s : Simulation) (nm : string) (v : R) : Simulation :=
  set_satellites s (map (ui_change_speed_sat nm v) (satellites s)).

End MainWindow.

(** ** Proofs *)

Module Facts.
Import Models Sim MainWindow.

Lemma rlt_true (a b : R) : a < b -> rlt a b = true.
Proof. intros H. unfold rlt. destruct (Rlt_dec a b); [reflexivity | contradiction]. Qed.

Lemma rlt_false (a b : R) : b <= a -> rlt a b = false.
Proof. intros H. unfold rlt. destruct (Rlt_dec a b); [lra | reflexivity]. Qed.

Lemma rle_true (a b : R) : a <= b -> rle a b = true.
Proof. intros H. unfold rle. destruct (Rle_dec a b); [reflexivity | contradiction]. Qed.

Lemma rle_false (a b : R) : b < a -> rle a b = false.
Proof. intros H. unfold rle. destruct (Rle_dec a b); [lra | reflexivity]. Qed.

(** Case on a decision [t], carrying along the hypotheses that mention it. *)
Ltac case_dec t :=
  repeat match goal with H : context [t] |- _ => revert H end;
  destruct t; intros.

(** Split every float comparison of the goal and the hypotheses into its
    two cases, with the negative case stated positively. *)
Ltac split_cmp :=
  unfold rlt, rle in *;
  repeat match goal with
  | |- context [Rlt_dec ?a ?b] => case_dec (Rlt_dec a b)
  | |- context [Rle_dec ?a ?b] => case_dec (Rle_dec a b)
  | H : context [Rlt_dec ?a ?b] |- _ => case_dec (Rlt_dec a b)
  | H : context [Rle_dec ?a ?b] |- _ => case_dec (Rle_dec a b)
  end;
  repeat match goal with
  | H : ~ (_ < _) |- _ => apply Rnot_lt_le in H
  | H : ~ (_ <= _) |- _ => apply Rnot_le_lt in H
  end.

Lemma py_clamp (v : R) : py_max 0.5 (py_min v 5) = Rmax 0.5 (Rmin v 5).
Proof.
  unfold py_max, py_min, Rmax, Rmin.
  split_cmp; lra.
Qed.

(** [_update_status] leaves a non-negative fuel. *)
Lemma update_status_fuel_nonneg (s : Satellite) : 0 <= fuel (update_status s).
Proof. unfold update_status. split_cmp; simpl; lra. Qed.

Lemma update_status_obj (s : Satellite) : sat_obj (update_status s) = sat_obj s.
Proof. unfold update_status. split_cmp; reflexivity. Qed.

(** The threshold of [check_collision] for each pair of kinds, as the spec
    lists them: satellite--debris [20 + danger_radius], satellite--satellite
    [40], no collision otherwise. *)
Definition collision_threshold (e1 e2 : Entity) : option R :=
  match e1, e2 with
  | ESat _, EDeb d | EDeb d, ESat _ => Some (20 + danger_radius d)
  | ESat _, ESat _ => Some 40
  | EDeb _, EDeb _ => None
  end.

(** C1: [distance_to a b] is [sqrt((a.x + b.x)^2 + (a.y + b.y)^2)], the
    coordinates being summed, and it is the metric that
    [check_collision] (against the threshold of each kind of pair) and
    [check_proximity_warning] compare. *)
Theorem distance_to_summed_metric :
  (forall a b : CelestialObject,
     distance_to a b = sqrt ((x a + x b) ^ 2 + (y a + y b) ^ 2)) /\
  (forall e1 e2 : Entity,
     check_collision e1 e2 =
       match collision_threshold e1 e2 with
       | Some r =>
           rlt (sqrt ((x (entity_obj e1) + x (entity_obj e2)) ^ 2 +
                      (y (entity_obj e1) + y (entity_obj e2)) ^ 2)) r
       | None => false
       end) /\
  (forall (sat : Satellite) (o : Entity) (w : R),
     check_proximity_warning sat o w =
       rlt (sqrt ((x (sat_obj sat) + x (entity_obj o)) ^ 2 +
                  (y (sat_obj sat) + y (entity_obj o)) ^ 2)) w).
Proof.
  split; [reflexivity|]. split.
  - intros [s1|d1] [s2|d2]; unfold check_collision, SATELLITE_RADIUS;
      simpl; try reflexivity.
    replace (20 * 2) with 40 by lra. reflexivity.
  - reflexivity.
Qed.

(** C3: [deorbit()] returns [True] exactly when the fuel is at least [5.0]; it
    then deactivates the satellite, sets the status to ["deorbited"] and
    takes exactly [5.0] of fuel, leaving name, position, speed and angle
    alone; otherwise it returns [False] and the satellite is unchanged. *)
Theorem deorbit_iff_fuel (s : Satellite) :
  (snd (deorbit s) = true <-> 5 <= fuel s) /\
  (5 <= fuel s ->
     let s' := fst (deorbit s) in
     active (sat_obj s') = false /\ status s' = Models.deorbited /\
     fuel s' = fuel s - 5 /\
     name (sat_obj s') = name (sat_obj s) /\ x (sat_obj s') = x (sat_obj s) /\
     y (sat_obj s') = y (sat_obj s) /\ speed (sat_obj s') = speed (sat_obj s) /\
     angle (sat_obj s') = angle (sat_obj s)) /\
  (fuel s < 5 -> deorbit s = (s, false)).
Proof.
  unfold deorbit. split; [|split].
  - split_cmp; simpl; split; intros; first [lra | discriminate | reflexivity].
  - intros H. rewrite (rlt_false _ _ H). simpl. repeat split.
  - intros H. rewrite (rlt_true _ _ H). reflexivity.
Qed.

Lemma deorbit_iff_fuel_witness :
  fuel (fst (deorbit (new_satellite "ISS" 200 300 1.5 45 80))) = 80 - 5 /\
  deorbit (new_satellite "X" 0 0 1 0 3) = (new_satellite "X" 0 0 1 0 3, false).
Proof.
  split.
  - destruct (proj1 (proj2 (deorbit_iff_fuel (new_satellite "ISS" 200 300 1.5 45 80)))
      ltac:(simpl; lra)) as (_ & _ & Hf & _).
    exact Hf.
  - apply (proj2 (proj2 (deorbit_iff_fuel (new_satellite "X" 0 0 1 0 3)))). simpl. lra.
Defined.

(** C8: [change_speed(v)] does nothing when the fuel is at most [0]; otherwise
    it sets the speed to [v] clamped to [[0.5, 5.0]], takes [1.5] of fuel
    and recomputes the status, which leaves a non-negative fuel.  From fuel
    [1.0], [change_speed(3.0)] ends with speed [3.0], fuel [0] and status
    ["critical"]. *)
Theorem change_speed_spec (s : Satellite) (v : R) :
  (fuel s <= 0 -> change_speed s v = s) /\
  (0 < fuel s ->
     change_speed s v =
       update_status (mkSatellite (set_speed (sat_obj s) (Rmax 0.5 (Rmin v 5)))
                        (fuel s - 1.5) (status s)) /\
     0 <= fuel (change_speed s v)) /\
  (fuel s = 1 ->
     speed (sat_obj (change_speed s 3)) = 3 /\ fuel (change_speed s 3) = 0 /\
     status (change_speed s 3) = critical).
Proof.
  split; [|split].
  - intros H. unfold change_speed. rewrite (rle_true _ _ H). reflexivity.
  - intros H. unfold change_speed. rewrite (rle_false _ _ H), py_clamp.
    split; [reflexivity | apply update_status_fuel_nonneg].
  - intros H. unfold change_speed, update_status, set_fuel, set_obj, set_speed.
    simpl. rewrite H, (rle_false 1 0) by lra.
    rewrite (rle_true (1 - 1.5) 0) by lra. simpl.
    unfold py_max, py_min.
    rewrite (rlt_false 5 3), (rlt_true 0.5 3) by lra.
    repeat split.
Qed.

Lemma change_speed_spec_witness :
  change_speed (new_satellite "Hubble" 500 150 1 180 0) 2 =
    new_satellite "Hubble" 500 150 1 180 0 /\
  0 <= fuel (change_speed (new_satellite "Hubble" 500 150 1 180 60) 2) /\
  status (change_speed (new_satellite "X" 0 0 1 0 1) 3) = critical.
Proof.
  split; [|split].
  - apply (proj1 (change_speed_spec (new_satellite "Hubble" 500 150 1 180 0) 2)).
    simpl. lra.
  - apply (proj2 (proj1 (proj2 (change_speed_spec
      (new_satellite "Hubble" 500 150 1 180 60) 2)) ltac:(simpl; lra))).
  - apply (proj2 (proj2 (proj2 (change_speed_spec (new_satellite "X" 0 0 1 0 1) 3))
      eq_refl)).
Defined.

(** The sum metric between two objects both at the origin is [0]. *)
Lemma distance_origin (a b : CelestialObject) :
  x a = 0 -> y a = 0 -> x b = 0 -> y b = 0 -> distance_to a b = 0.
Proof.
  intros Ha Hb Hc Hd. unfold distance_to. rewrite Ha, Hb, Hc, Hd.
  replace ((0 + 0) ^ 2 + (0 + 0) ^ 2) with 0 by ring. apply sqrt_0.
Qed.

(** C10: Two debris never collide, whatever their positions: [check_collision]
    can only answer [True] when one of its arguments is a satellite. *)
Theorem debris_pairs_never_collide :
  (forall d1 d2 : Debris, check_collision (EDeb d1) (EDeb d2) = false) /\
  (forall e1 e2 : Entity, check_collision e1 e2 = true ->
     exists s : Satellite, e1 = ESat s \/ e2 = ESat s).
Proof.
  split.
  - reflexivity.
  - intros [s1|d1] [s2|d2] H; try discriminate; eauto.
Qed.

Lemma debris_pairs_never_collide_witness :
  check_collision (EDeb (mkDebris (new_object "Alpha-0" 0 0 1 0) "large"))
                  (EDeb (mkDebris (new_object "Beta-1" 0 0 1 0) "large")) = false /\
  exists s : Satellite,
    ESat (new_satellite "A" 0 0 0 0 100) = ESat s \/
    ESat (new_satellite "B" 0 0 0 0 100) = ESat s.
Proof.
  split.
  - apply (proj1 debris_pairs_never_collide).
  - apply (proj2 debris_pairs_never_collide).
    unfold check_collision. simpl entity_obj.
    rewrite distance_origin by reflexivity.
    apply rlt_true. unfold SATELLITE_RADIUS. lra.
Defined.


(** The operations a single satellite undergoes: [update()],
    [change_angle(a)], [change_speed(v)] and [deorbit()]. *)
Inductive SatOp := OpUpdate | OpAngle (a : R) | OpSpeed (v : R) | OpDeorbit.

Definition apply_op (s : Satellite) (op : SatOp) : Satellite :=
  match op with
  | OpUpdate => sat_update s
  | OpAngle a => change_angle s a
  | OpSpeed v => change_speed s v
  | OpDeorbit => fst (deorbit s)
  end.

Definition run_ops (s : Satellite) (ops : list SatOp) : Satellite :=
  fold_left apply_op ops s.

(** The status the fuel thresholds prescribe, unless it is ["deorbited"]. *)
Definition status_matches_fuel (s : Satellite) : Prop :=
  status s = Models.deorbited \/
  (20 <= fuel s /\ status s = nominal) \/
  (0 < fuel s < 20 /\ status s = warning) \/
  (fuel s = 0 /\ status s = critical).

Definition fuel_status_inv (s : Satellite) : Prop :=
  0 <= fuel s /\ status_matches_fuel s.

Lemma update_status_matches (s : Satellite) : fuel_status_inv (update_status s).
Proof.
  unfold fuel_status_inv, status_matches_fuel, update_status.
  split_cmp; simpl; split; lra || (right; lra || intuition lra).
Qed.

Lemma obj_update_inactive (o : CelestialObject) :
  active o = false -> obj_update o = o.
Proof. intros H. unfold obj_update. rewrite H. reflexivity. Qed.

Lemma obj_update_active (o : CelestialObject) : active (obj_update o) = active o.
Proof. unfold obj_update, set_pos. destruct (active o) eqn:E; simpl; auto. Qed.

Lemma obj_update_angle (o : CelestialObject) : angle (obj_update o) = angle o.
Proof. unfold obj_update, set_pos. destruct (active o); reflexivity. Qed.

(** [update()] either recomputes the status or leaves fuel and status. *)
Lemma sat_update_cases (s : Satellite) :
  (sat_active s = true /\
     sat_update s = update_status (mkSatellite (obj_update (sat_obj s)) (fuel s - 0.1) (status s))) \/
  (sat_active s = false /\ sat_update s = s).
Proof.
  unfold sat_update, sat_active, set_obj, set_fuel. simpl.
  rewrite obj_update_active. destruct (active (sat_obj s)) eqn:E.
  - left. split; reflexivity.
  - right. split; [reflexivity|]. rewrite obj_update_inactive by assumption.
    destruct s; reflexivity.
Qed.

Lemma apply_op_inv (s : Satellite) (op : SatOp) :
  fuel_status_inv s -> fuel_status_inv (apply_op s op).
Proof.
  intros Hs. destruct op as [|a|v|]; simpl.
  - destruct (sat_update_cases s) as [[_ ->]|[_ ->]];
      [apply update_status_matches | exact Hs].
  - unfold change_angle. split_cmp; [exact Hs | apply update_status_matches].
  - unfold change_speed. split_cmp; [exact Hs | apply update_status_matches].
  - unfold deorbit. destruct Hs as [Hf Hst]. split_cmp; simpl.
    + split; assumption.
    + unfold fuel_status_inv, status_matches_fuel. simpl.
      split; [lra | left; reflexivity].
Qed.

Lemma apply_op_fuel_nonneg (s : Satellite) (op : SatOp) :
  0 <= fuel s -> 0 <= fuel (apply_op s op).
Proof.
  intros Hs. destruct op as [|a|v|]; simpl.
  - destruct (sat_update_cases s) as [[_ ->]|[_ ->]];
      [apply update_status_fuel_nonneg | exact Hs].
  - unfold change_angle. split_cmp; [exact Hs | apply update_status_fuel_nonneg].
  - unfold change_speed. split_cmp; [exact Hs | apply update_status_fuel_nonneg].
  - unfold deorbit. split_cmp; simpl; lra.
Qed.

Lemma run_ops_preserves (P : Satellite -> Prop) :
  (forall s op, P s -> P (apply_op s op)) ->
  forall ops s, P s -> P (run_ops s ops).
Proof.
  intros Hstep ops. induction ops as [|op ops IH]; intros s Hs; simpl.
  - exact Hs.
  - apply IH, Hstep, Hs.
Qed.

(** C2: Counterexample: a satellite built with fuel [3.0] whose [deorbit()]
    fails keeps the status ["nominal"] set by the constructor, although
    the thresholds prescribe ["warning"]. *)
Lemma fuel_status_counterexample :
  ~ (forall ops, fuel_status_inv (run_ops (new_satellite "X" 0 0 1 0 3) ops)).
Proof.
  intros H. specialize (H [OpDeorbit]).
  unfold run_ops in H. simpl in H. unfold deorbit in H. simpl in H.
  rewrite (rlt_true 3 5) in H by lra. simpl in H.
  destruct H as [_ [H|[H|[H|H]]]]; simpl in H;
    first [discriminate H | destruct H as [H1 H2]; first [lra | discriminate H2]].
Qed.

(** C2 (amended): For a satellite built with fuel [>= 0], the fuel stays [>= 0] through
    any sequence of [update], [change_angle], [change_speed] and [deorbit].
    The rule "status is ["deorbited"] or given by the fuel thresholds" is
    kept by every operation, holds from construction on when the initial
    fuel is [>= 20], and is established by any status recomputation (an
    [update] of an active satellite, a [change_angle] or [change_speed]
    with fuel [> 0]) and by a successful [deorbit]. *)
Theorem fuel_status_invariant :
  (forall n x0 y0 sp an f ops,
     0 <= f -> 0 <= fuel (run_ops (new_satellite n x0 y0 sp an f) ops)) /\
  (forall s op, fuel_status_inv s -> fuel_status_inv (apply_op s op)) /\
  (forall n x0 y0 sp an f ops,
     20 <= f -> fuel_status_inv (run_ops (new_satellite n x0 y0 sp an f) ops)) /\
  (forall s : Satellite, 0 <= fuel s ->
     (sat_active s = true -> fuel_status_inv (sat_update s)) /\
     (forall a, 0 < fuel s -> fuel_status_inv (change_angle s a)) /\
     (forall v, 0 < fuel s -> fuel_status_inv (change_speed s v)) /\
     (5 <= fuel s -> fuel_status_inv (fst (deorbit s)))).
Proof.
  split; [|split; [|split]].
  - intros n x0 y0 sp an f ops Hf.
    apply (run_ops_preserves (fun s => 0 <= fuel s)); [apply apply_op_fuel_nonneg | exact Hf].
  - apply apply_op_inv.
  - intros n x0 y0 sp an f ops Hf.
    apply run_ops_preserves; [apply apply_op_inv|].
    split; simpl; [lra | right; left; split; [exact Hf | reflexivity]].
  - intros s Hf. split; [|split; [|split]].
    + intros Ha. destruct (sat_update_cases s) as [[_ ->]|[H _]];
        [apply update_status_matches | congruence].
    + intros a Hp. unfold change_angle. rewrite (rle_false _ _ Hp).
      apply update_status_matches.
    + intros v Hp. unfold change_speed. rewrite (rle_false _ _ Hp).
      apply update_status_matches.
    + intros H5. unfold deorbit. rewrite (rlt_false _ _ H5).
      unfold fuel_status_inv, status_matches_fuel. simpl.
      split; [lra | left; reflexivity].
Qed.

Lemma fuel_status_invariant_witness :
  0 <= fuel (run_ops (new_satellite "ISS" 200 300 1.5 45 80) [OpUpdate; OpAngle 90; OpDeorbit]) /\
  fuel_status_inv (run_ops (new_satellite "ISS" 200 300 1.5 45 80) [OpUpdate; OpSpeed 2]) /\
  fuel_status_inv (change_angle (new_satellite "X" 0 0 1 0 3) 10) /\
  fuel_status_inv (apply_op (new_satellite "Y" 0 0 1 0 50) OpUpdate).
Proof.
  destruct fuel_status_invariant as (H1 & H2 & H3 & H4).
  split; [|split; [|split]].
  - apply H1. lra.
  - apply H3. lra.
  - apply (proj1 (proj2 (H4 (new_satellite "X" 0 0 1 0 3) ltac:(simpl; lra))));
      simpl; lra.
  - apply H2. unfold fuel_status_inv, status_matches_fuel. simpl.
    split; [lra | right; left; split; [lra | reflexivity]].
Defined.

(** The operations as the window applies them to the satellite named
    [nm]: [update()] from the tick, [change_angle] and [change_speed]
    behind the window's [sat.active] test, and [deorbit()]. *)
Definition ui_op (nm : string) (s : Satellite) (op : SatOp) : Satellite :=
  match op with
  | OpUpdate => sat_update s
  | OpAngle a => ui_change_angle_sat nm a s
  | OpSpeed v => ui_change_speed_sat nm v s
  | OpDeorbit => fst (deorbit s)
  end.

(** An inactive satellite is left inactive and ["deorbited"] by the
    window's operations. *)
Lemma ui_op_keeps_deorbited (nm : string) (s : Satellite) (op : SatOp) :
  sat_active s = false -> status s = Models.deorbited ->
  sat_active (ui_op nm s op) = false /\ status (ui_op nm s op) = Models.deorbited.
Proof.
  intros Ha Hs. destruct op as [|a|v|]; simpl.
  - destruct (sat_update_cases s) as [[H _]|[_ ->]]; [congruence | auto].
  - unfold ui_change_angle_sat. rewrite Ha, Bool.andb_false_r. auto.
  - unfold ui_change_speed_sat. rewrite Ha, Bool.andb_false_r. auto.
  - unfold deorbit. split_cmp; simpl; auto.
Qed.

(** C4: Counterexample: [change_angle] does not test [active]; on a satellite
    deorbited with [75.0] of fuel left it recomputes the status, which
    becomes ["nominal"]. *)
Lemma deorbited_sticky_counterexample :
  let s := fst (deorbit (new_satellite "ISS" 200 300 1.5 45 80)) in
  status s = Models.deorbited /\ status (change_angle s 90) = nominal.
Proof.
  unfold deorbit. simpl. rewrite (rlt_false 80 5) by lra. simpl.
  split; [reflexivity|].
  unfold change_angle, update_status. simpl.
  rewrite (rle_false (80 - 5) 0) by lra. simpl.
  rewrite (rle_false (80 - 5 - 2) 0) by lra.
  rewrite (rlt_false (80 - 5 - 2) 20) by lra. reflexivity.
Qed.

(** C4 (amended): After a successful [deorbit()] the satellite is inactive with status
    ["deorbited"], and stays so through any sequence of [update()] calls,
    of [change_angle]/[change_speed] calls made by the window (which skips
    inactive satellites) and of further [deorbit()] calls. *)
Theorem deorbited_sticky_through_window (s : Satellite) (nm : string) (ops : list SatOp) :
  snd (deorbit s) = true ->
  status (fold_left (ui_op nm) ops (fst (deorbit s))) = Models.deorbited /\
  sat_active (fold_left (ui_op nm) ops (fst (deorbit s))) = false.
Proof.
  intros Hok.
  assert (H0 : sat_active (fst (deorbit s)) = false /\
               status (fst (deorbit s)) = Models.deorbited).
  { revert Hok. unfold deorbit. split_cmp; simpl; [discriminate | auto]. }
  revert H0. generalize (fst (deorbit s)). induction ops as [|op ops IH]; intros t [Ha Hs].
  - simpl. auto.
  - simpl. apply IH. apply ui_op_keeps_deorbited; assumption.
Qed.

Lemma deorbited_sticky_through_window_witness :
  status (fold_left (ui_op "ISS") [OpUpdate; OpAngle 90; OpSpeed 3]
            (fst (deorbit (new_satellite "ISS" 200 300 1.5 45 80)))) = Models.deorbited /\
  sat_active (fold_left (ui_op "ISS") [OpUpdate; OpAngle 90; OpSpeed 3]
            (fst (deorbit (new_satellite "ISS" 200 300 1.5 45 80)))) = false.
Proof.
  apply deorbited_sticky_through_window.
  unfold deorbit. simpl. rewrite (rlt_false 80 5) by lra. reflexivity.
Defined.

(** [a % 360] lies in [[0, 360)]. *)
Lemma py_mod_360_range (a : R) : 0 <= py_mod a 360 < 360.
Proof.
  unfold py_mod. destruct (base_Int_part (a / 360)) as [H1 H2].
  set (k := IZR (Int_part (a / 360))) in *.
  assert (Ha : a = 360 * (a / 360)) by (field; lra).
  split; nra.
Qed.

Lemma update_status_angle (s : Satellite) :
  angle (sat_obj (update_status s)) = angle (sat_obj s).
Proof. rewrite update_status_obj. reflexivity. Qed.

(** C5: Counterexample: from [Simulation()], a first tick that spawns a debris
    on the bottom edge with the lowest angle draw reaches a state holding a
    debris whose heading is [-30]. *)
Lemma angle_range_counterexample :
  exists s, reachable s /\
    exists d, In d (debris_list s) /\ angle (deb_obj d) = -30.
Proof.
  exists (tick init 0 (mkDraws bottom 0.5 0 0 0 0)). split.
  - apply r_tick; [apply r_init | unfold unit_draw; lra |].
    unfold valid_draws, unit_draw. simpl. repeat split; lra || lia.
  - unfold tick, init, update_all, maybe_spawn, score_and_game_over,
      spawn_chance, py_min. simpl.
    split_cmp; simpl; try lra.
    unfold uniform, AREA_WIDTH, AREA_HEIGHT in *.
    split_cmp; simpl; try lra.
    eexists; split; [left; reflexivity | simpl; unfold uniform; lra].
Qed.

(** C5 (amended): [change_angle] with fuel [> 0] leaves a heading in [[0, 360]];
    [update], [change_speed] and [deorbit] keep the heading; the
    constructor stores the heading as given; [DebrisField.generate] draws a
    heading in [[150, 210]] (top edge), [[-30, 30]] (bottom), [[-45, 45]]
    (left) or [[135, 225]] (right), so a generated debris can have a
    negative heading.  The ranges are closed: Python's float [%] and
    [random.uniform] may round to their upper end. *)
Theorem angle_range_amended :
  (forall (s : Satellite) (a : R), 0 < fuel s ->
     0 <= angle (sat_obj (change_angle s a)) <= 360) /\
  (forall (s : Satellite) (a : R), fuel s <= 0 -> change_angle s a = s) /\
  (forall s : Satellite, angle (sat_obj (sat_update s)) = angle (sat_obj s)) /\
  (forall (s : Satellite) (v : R), angle (sat_obj (change_speed s v)) = angle (sat_obj s)) /\
  (forall s : Satellite, angle (sat_obj (fst (deorbit s))) = angle (sat_obj s)) /\
  (forall d : Debris, angle (deb_obj (deb_update d)) = angle (deb_obj d)) /\
  (forall n x0 y0 sp an f, angle (sat_obj (new_satellite n x0 y0 sp an f)) = an) /\
  (forall (f : DebrisField) (g : GenDraws), valid_draws g ->
     let a := angle (deb_obj (fst (generate f g))) in
     match g_side g with
     | top => 150 <= a <= 210
     | bottom => -30 <= a <= 30
     | left => -45 <= a <= 45
     | right => 135 <= a <= 225
     end).
Proof.
  repeat split.
  - unfold change_angle. rewrite (rle_false _ _ H). rewrite update_status_angle.
    apply py_mod_360_range.
  - unfold change_angle. rewrite (rle_false _ _ H). rewrite update_status_angle.
    apply Rlt_le, py_mod_360_range.
  - intros s a H. unfold change_angle. rewrite (rle_true _ _ H). reflexivity.
  - intros s. destruct (sat_update_cases s) as [[_ ->]|[_ ->]]; [|reflexivity].
    rewrite update_status_angle. apply obj_update_angle.
  - intros s v. unfold change_speed. split_cmp; [reflexivity|].
    rewrite update_status_angle. reflexivity.
  - intros s. unfold deorbit. split_cmp; reflexivity.
  - intros d. apply obj_update_angle.
  - intros f g (_ & [Ha1 Ha2] & _). unfold generate.
    destruct (g_side g); simpl; unfold uniform; split; nra.
Qed.

Lemma angle_range_amended_witness :
  0 <= angle (sat_obj (change_angle (new_satellite "ISS" 200 300 1.5 45 80) 725)) <= 360 /\
  change_angle (new_satellite "GPS-VII" 600 350 0.8 270 0) 45 =
    new_satellite "GPS-VII" 600 350 0.8 270 0 /\
  (let a := angle (deb_obj (fst (generate (mkField 800 600 0) (mkDraws left 0.5 0.25 0 0 3)))) in
   -45 <= a <= 45).
Proof.
  destruct angle_range_amended as (H1 & H2 & _ & _ & _ & _ & _ & H8).
  split; [|split].
  - apply H1. simpl. lra.
  - apply H2. simpl. lra.
  - apply (H8 (mkField 800 600 0) (mkDraws left 0.5 0.25 0 0 3)).
    unfold valid_draws, unit_draw. simpl. repeat split; lra || lia.
Defined.

(** The fields that the collision pass and the cleanup never touch. *)
Definition meta_eq (a b : Simulation) : Prop :=
  tick_count a = tick_count b /\ deorbited a = deorbited b /\ game_over a = game_over b.

Lemma meta_eq_trans (a b c : Simulation) : meta_eq a b -> meta_eq b c -> meta_eq a c.
Proof. unfold meta_eq. intuition congruence. Qed.

Lemma meta_eq_refl (a : Simulation) : meta_eq a a.
Proof. unfold meta_eq. auto. Qed.

Lemma sat_debris_step_meta (st : Simulation) (si di : nat) :
  meta_eq (sat_debris_step st si di) st.
Proof.
  unfold sat_debris_step.
  destruct (nth_error (satellites st) si), (nth_error (debris_list st) di);
    try apply meta_eq_refl.
  destruct (check_collision _ _); [|destruct (check_proximity_warning _ _ _)];
    unfold meta_eq; simpl; auto.
Qed.

Lemma sat_pair_step_meta (st : Simulation) (si sj : nat) :
  meta_eq (sat_pair_step st si sj) st.
Proof.
  unfold sat_pair_step.
  destruct (nth_error (satellites st) si), (nth_error (satellites st) sj);
    try apply meta_eq_refl.
  destruct (check_collision _ _); unfold meta_eq; simpl; auto.
Qed.

Lemma fold_meta {A : Type} (f : Simulation -> A -> Simulation) :
  (forall st a, meta_eq (f st a) st) ->
  forall l st, meta_eq (fold_left f l st) st.
Proof.
  intros Hf l. induction l as [|a l IH]; intros st; simpl.
  - apply meta_eq_refl.
  - eapply meta_eq_trans; [apply IH | apply Hf].
Qed.

Lemma check_all_collisions_meta (st : Simulation) :
  meta_eq (check_all_collisions st) st.
Proof.
  unfold check_all_collisions.
  eapply meta_eq_trans; [apply fold_meta|].
  - intros st' i. apply fold_meta. intros st'' j. apply sat_pair_step_meta.
  - apply fold_meta. intros st' si. apply fold_meta. intros st'' di.
    apply sat_debris_step_meta.
Qed.

(** What one tick does to the counters it owns, when the game is not over. *)
Lemma tick_meta (s : Simulation) (rnd : R) (g : GenDraws) :
  game_over s = false ->
  tick_count (tick s rnd g) = S (tick_count s) /\
  deorbited (tick s rnd g) = deorbited s /\
  game_over (tick s rnd g) =
    Nat.eqb (count_active (satellites (tick s rnd g))) 0 &&
    Nat.ltb 10 (tick_count (tick s rnd g)).
Proof.
  intros Hg. unfold tick, score_and_game_over. rewrite Hg. cbv zeta.
  match goal with |- context [check_all_collisions ?X] =>
    assert (HX : meta_eq X (set_tick_count s (S (tick_count s))));
    [| pose proof (check_all_collisions_meta X) as HM;
       set (s5 := check_all_collisions X) in *] end.
  { unfold maybe_spawn, update_all.
    destruct (rlt _ _); [destruct (generate _ _)|]; unfold meta_eq; simpl; auto. }
  destruct (meta_eq_trans _ _ _ HM HX) as (H1 & H2 & H3). simpl in H1, H2, H3.
  unfold cleanup_out_of_bounds, set_score, set_debris, set_game_over. simpl.
  rewrite H1, H2, H3.
  destruct (Nat.eqb _ 0 && Nat.ltb 10 _) eqn:E; simpl; rewrite ?H1, ?H2, ?H3, ?E; auto.
Qed.

(** Every public operation other than [tick] keeps the tick counter, the
    deorbit counter and the game-over flag. *)
Lemma deorbit_loop_meta (nm : string) (l : list Satellite) (k : nat) (st : Simulation) :
  meta_eq (fst (deorbit_loop nm k l st)) st.
Proof.
  revert k. induction l as [|sat l IH]; intros k; simpl; [apply meta_eq_refl|].
  destruct (String.eqb _ _ && sat_active sat); [|apply IH].
  destruct (deorbit sat) as [sat' [|]]; unfold meta_eq; simpl; auto.
Qed.

Lemma deorbit_loop_ok (nm : string) (l : list Satellite) (k : nat) (st : Simulation) :
  snd (deorbit_loop nm k l st) = true ->
  collisions (fst (deorbit_loop nm k l st)) = (collisions st + 1)%nat.
Proof.
  revert k. induction l as [|sat l IH]; intros k; simpl; [discriminate|].
  destruct (String.eqb _ _ && sat_active sat); [|apply IH].
  destruct (deorbit sat) as [sat' [|]]; simpl; [reflexivity | discriminate].
Qed.

Lemma reachable_meta (s : Simulation) :
  reachable s ->
  deorbited s = 0%nat /\ (game_over s = true -> (10 < tick_count s)%nat).
Proof.
  induction 1 as [| s n x0 y0 sp an f _ IH | s rnd g _ IH _ _ | s nm _ IH | s _ IH
                 | s i a _ IH | s i v _ IH].
  - simpl. split; [reflexivity | discriminate].
  - exact IH.
  - destruct (game_over s) eqn:Eg.
    + unfold tick. rewrite Eg. destruct IH as [IH1 IH2].
      split; [exact IH1 | intros _; apply IH2; reflexivity].
    + destruct (tick_meta s rnd g Eg) as (H1 & H2 & H3). split.
      * rewrite H2. apply IH.
      * rewrite H3. intros E. apply andb_prop in E as [_ E].
        apply Nat.ltb_lt in E. exact E.
  - destruct (deorbit_loop_meta nm (satellites s) 0 s) as (H1 & H2 & H3).
    unfold deorbit_satellite. rewrite H1, H2, H3. exact IH.
  - exact IH.
  - exact IH.
  - exact IH.
Qed.

(** C6: A tick on a finished game returns at once and changes nothing; a tick on
    a running game adds one to the tick counter and ends the game exactly
    when no satellite is active afterwards and the counter exceeds [10]; in
    any reachable state the game is over only after tick [10]. *)
Theorem game_over_transition :
  (forall s rnd g, game_over s = true -> tick s rnd g = s) /\
  (forall s rnd g, game_over s = false ->
     tick_count (tick s rnd g) = S (tick_count s) /\
     (game_over (tick s rnd g) = true <->
        count_active (satellites (tick s rnd g)) = 0%nat /\
        (10 < tick_count (tick s rnd g))%nat)) /\
  (forall s, reachable s -> game_over s = true -> (10 < tick_count s)%nat).
Proof.
  split; [|split].
  - intros s rnd g H. unfold tick. rewrite H. reflexivity.
  - intros s rnd g H. destruct (tick_meta s rnd g H) as (H1 & _ & H3).
    split; [exact H1|]. rewrite H3, Bool.andb_true_iff, Nat.eqb_eq, Nat.ltb_lt.
    reflexivity.
  - intros s Hr. apply (reachable_meta s Hr).
Qed.

(** A tick on an empty arena that draws [0.9] spawns nothing (the spawn
    chance never exceeds [0.3]) and only moves the tick counter. *)
Lemma tick_empty_arena (n sc c d : nat) (f : DebrisField) (ev : list string) (g : GenDraws) :
  tick (mkSim [] [] f n sc c d false ev) 0.9 g =
    mkSim [] [] f (S n) sc c d (Nat.ltb 10 (S n)) ev.
Proof.
  unfold tick, update_all, maybe_spawn, score_and_game_over. simpl.
  rewrite (rlt_false 0.9 _).
  - simpl. destruct (Nat.ltb 10 (S n)); unfold set_game_over, set_score; simpl;
      rewrite Nat.add_0_r; reflexivity.
  - unfold spawn_chance, py_min. split_cmp; lra.
Qed.

Definition idle_draws : GenDraws := mkDraws top 0 0 0 0 0.

(** Eleven ticks of [Simulation()] with no satellite. *)
Definition eleven_idle_ticks : Simulation :=
  Nat.iter 11 (fun s => tick s 0.9 idle_draws) init.

Lemma game_over_transition_witness :
  tick (set_game_over init true) 0 idle_draws = set_game_over init true /\
  (game_over (tick init 0.9 idle_draws) = true <->
     count_active (satellites (tick init 0.9 idle_draws)) = 0%nat /\
     (10 < tick_count (tick init 0.9 idle_draws))%nat) /\
  (10 < tick_count eleven_idle_ticks)%nat.
Proof.
  destruct game_over_transition as (H1 & H2 & H3).
  split; [|split].
  - apply H1. reflexivity.
  - apply (proj2 (H2 init 0.9 idle_draws eq_refl)).
  - apply H3.
    + unfold eleven_idle_ticks. simpl.
      repeat (apply r_tick; [| unfold unit_draw; lra |
                             unfold valid_draws, unit_draw; simpl; repeat split; lra || lia]).
      apply r_init.
    + unfold eleven_idle_ticks, init. simpl Nat.iter.
      repeat (rewrite tick_empty_arena; cbn [Nat.ltb Nat.leb]).
      reflexivity.
Defined.

(** C9: No operation ever moves the deorbit counter: it reads [0] in every
    reachable state and in [get_stats()]; a successful
    [deorbit_satellite(name)] adds [1] to the collision counter instead. *)
Theorem deorbit_counter_never_moves :
  (forall s, reachable s -> deorbited s = 0%nat /\ desorbites (get_stats s) = 0%nat) /\
  (forall s nm, snd (deorbit_satellite s nm) = true ->
     collisions (fst (deorbit_satellite s nm)) = (collisions s + 1)%nat /\
     deorbited (fst (deorbit_satellite s nm)) = deorbited s).
Proof.
  split.
  - intros s Hr. destruct (reachable_meta s Hr) as [H _]. split; [exact H | exact H].
  - intros s nm H. split.
    + apply deorbit_loop_ok, H.
    + apply (deorbit_loop_meta nm (satellites s) 0 s).
Qed.

Lemma deorbit_counter_never_moves_witness :
  (deorbited (add_satellite init (new_satellite "ISS" 200 300 1.5 45 80)) = 0%nat /\
   desorbites (get_stats (add_satellite init (new_satellite "ISS" 200 300 1.5 45 80))) = 0%nat) /\
  (collisions (fst (deorbit_satellite
     (add_satellite init (new_satellite "ISS" 200 300 1.5 45 80)) "ISS")) = 1%nat /\
   deorbited (fst (deorbit_satellite
     (add_satellite init (new_satellite "ISS" 200 300 1.5 45 80)) "ISS")) = 0%nat).
Proof.
  destruct deorbit_counter_never_moves as [H1 H2]. split.
  - apply H1. apply r_add, r_init.
  - apply H2. unfold deorbit_satellite. simpl. unfold deorbit. simpl.
    rewrite (rlt_false 80 5) by lra. reflexivity.
Defined.

Lemma sqrt_of_square (e c : R) : 0 <= c -> e = c ^ 2 -> sqrt e = c.
Proof. intros Hc ->. apply sqrt_pow2, Hc. Qed.

(** Evaluate the [sqrt] of the scenario below: every sum metric there is
    [0] or [36]. *)
Ltac clean_sqrt :=
  repeat match goal with
  | |- context [sqrt ?e] =>
      first [ rewrite (sqrt_of_square e 0) by (lra || (unfold uniform; ring))
            | rewrite (sqrt_of_square e 36) by (lra || (unfold uniform; ring)) ]
  end.

(** A motionless, well-fuelled satellite only burns its passive drain. *)
Lemma sat_update_still (n : string) (x0 y0 an f : R) :
  20 <= f - 0.1 ->
  sat_update (new_satellite n x0 y0 0 an f) =
    mkSatellite (mkObject n x0 y0 0 an true) (f - 0.1) nominal.
Proof.
  intros Hf. unfold sat_update, obj_update, set_obj, set_pos, set_fuel, update_status.
  simpl. rewrite (rle_false (f - 0.1) 0), (rlt_false (f - 0.1) 20) by lra.
  f_equal. f_equal; ring.
Qed.

(** The two satellites of the scenario: [S1] at the origin and [S2] at
    [(36, 0)], both motionless. *)
Definition two_sats : Simulation :=
  add_satellite (add_satellite init (new_satellite "S1" 0 0 0 0 100))
    (new_satellite "S2" 36 0 0 0 100).

(** A debris drawn on the left edge at [(0, 0)], of size ["small"]. *)
Definition left_corner_draws : GenDraws := mkDraws left 0 0 0 0 0.

Definition S1_moved : Satellite := mkSatellite (mkObject "S1" 0 0 0 0 true) (100 - 0.1) nominal.
Definition S2_moved : Satellite := mkSatellite (mkObject "S2" 36 0 0 0 true) (100 - 0.1) nominal.
Definition D0 : Debris := mkDebris (mkObject "Alpha-0" 0 0 1 (-45) true) "small".

(** The state handed to [_check_all_collisions] in the first tick. *)
Definition before_pass : Simulation :=
  mkSim [S1_moved; S2_moved] [D0] (mkField AREA_WIDTH AREA_HEIGHT 1) 1 0 0 0 false [].

(** The state [_check_all_collisions] leaves. *)
Definition after_pass : Simulation :=
  mkSim [sat_deactivate S1_moved; sat_deactivate S2_moved] [deb_deactivate D0]
    (mkField AREA_WIDTH AREA_HEIGHT 1) 1 0 3 0 false
    [collision_msg "S1" "Alpha-0"; alert_msg "Alpha-0" "S2"; pair_msg "S1" "S2"].

Lemma generate_left_corner :
  generate (mkField AREA_WIDTH AREA_HEIGHT 0) left_corner_draws =
    (D0, mkField AREA_WIDTH AREA_HEIGHT 1).
Proof.
  unfold generate, choose_size, left_corner_draws. simpl.
  rewrite (rlt_true (0 * 100) 60) by lra.
  unfold D0, new_object, uniform. f_equal. f_equal. f_equal; ring.
Qed.

Lemma first_tick_before_pass :
  maybe_spawn (update_all (set_tick_count two_sats 1)) 0 left_corner_draws = before_pass.
Proof.
  unfold update_all, two_sats. simpl.
  rewrite !sat_update_still by lra.
  unfold maybe_spawn, spawn_chance, py_min. cbn -[generate rlt].
  rewrite (rlt_false 0.3 (0.05 + 1 * 0.0005)), (rlt_true 0 (0.05 + 1 * 0.0005)) by lra.
  rewrite generate_left_corner. reflexivity.
Qed.

(** The satellite--debris loop runs over [(S1, D0)] then [(S2, D0)], the
    pair loop over [(S1, S2)], all from the snapshot of [before_pass]. *)
Lemma first_tick_pass : check_all_collisions before_pass = after_pass.
Proof.
  change (check_all_collisions before_pass) with
    (sat_pair_step (sat_debris_step (sat_debris_step before_pass 0 0) 1 0) 0 1).
  unfold sat_pair_step, sat_debris_step, check_collision, check_proximity_warning,
    distance_to, SATELLITE_RADIUS, danger_radius.
  do 4 (simpl; clean_sqrt; split_cmp; try (exfalso; lra)).
  reflexivity.
Qed.

(** C7: From the reachable state [two_sats], the first tick spawns a small
    debris at the origin: [S1] hits it in the satellite--debris loop,
    [S2] only gets an alert (sum metric [36], threshold [35]), and the
    satellite--satellite loop, run on the snapshot taken before, finds
    [S1] and [S2] colliding (sum metric [36], threshold [40]) and
    deactivates [S1] again: two collision events name [S1] and the
    collision counter grows by [1 + 2 = 3]. *)
Theorem double_deactivation_reachable :
  exists s rnd g,
    reachable s /\ unit_draw rnd /\ valid_draws g /\
    collisions (tick s rnd g) = (collisions s + 3)%nat /\
    events (tick s rnd g) =
      events s ++ [collision_msg "S1" "Alpha-0"; alert_msg "Alpha-0" "S2";
                   pair_msg "S1" "S2"] /\
    count_active (satellites (tick s rnd g)) = 0%nat.
Proof.
  exists two_sats, 0, left_corner_draws.
  split; [apply r_add, r_add, r_init|].
  split; [unfold unit_draw; lra|].
  split; [unfold valid_draws, unit_draw; simpl; repeat split; lra || lia|].
  unfold tick. change (game_over two_sats) with false. cbv iota zeta.
  change (S (tick_count two_sats)) with 1%nat.
  rewrite first_tick_before_pass, first_tick_pass.
  repeat split.
Qed.

End Facts.

(** ** Further properties of the simulation engine *)

Module Extras.
Import Models Sim MainWindow Facts.

Lemma rlt_iff (a b : R) : rlt a b = true <-> a < b.
Proof. split; [unfold rlt; destruct (Rlt_dec a b); [auto | discriminate] | apply rlt_true]. Qed.

(** A satellite before and after a step: same name, and active afterwards
    only if it was active before. *)
Definition sat_evolves (a b : Satellite) : Prop :=
  sat_name b = sat_name a /\ (sat_active b = true -> sat_active a = true).

Definition sats_evolve (l l' : list Satellite) : Prop := Forall2 sat_evolves l l'.

Lemma sat_evolves_refl (a : Satellite) : sat_evolves a a.
Proof. split; auto. Qed.

Lemma sat_evolves_trans (a b c : Satellite) :
  sat_evolves a b -> sat_evolves b c -> sat_evolves a c.
Proof. intros [H1 H2] [H3 H4]. split; [congruence | auto]. Qed.

Lemma sats_evolve_refl (l : list Satellite) : sats_evolve l l.
Proof.
  induction l; constructor; [split; auto | assumption].
Qed.

Lemma sats_evolve_trans (l1 l2 l3 : list Satellite) :
  sats_evolve l1 l2 -> sats_evolve l2 l3 -> sats_evolve l1 l3.
Proof.
  intros H12. revert l3. induction H12 as [|a b l1 l2 Hab _ IH]; intros l3 H23.
  - exact H23.
  - inversion H23 as [|b' c l2' l3' Hbc H23']; subst.
    constructor; [|apply IH, H23'].
    destruct Hab as [Hn1 Ha1], Hbc as [Hn2 Ha2]. split; [congruence | auto].
Qed.

Lemma update_nth_length {A} (i : nat) (f : A -> A) (l : list A) :
  List.length (update_nth i f l) = List.length l.
Proof.
  revert i. induction l as [|a l IH]; intros [|i]; simpl; auto.
Qed.

Lemma update_nth_deactivate_evolves (i : nat) (l : list Satellite) :
  sats_evolve l (update_nth i sat_deactivate l).
Proof.
  revert i. induction l as [|a l IH]; intros [|i]; simpl; constructor;
    try apply IH; try apply sats_evolve_refl; split; auto; discriminate.
Qed.

Lemma sat_update_evolves (s : Satellite) : sat_evolves s (sat_update s).
Proof.
  destruct (sat_update_cases s) as [[_ ->]|[_ ->]]; [|split; auto].
  unfold sat_evolves, sat_name, sat_active. rewrite update_status_obj. simpl.
  rewrite obj_update_active. split; [|auto].
  unfold obj_update, set_pos. destruct (active (sat_obj s)); reflexivity.
Qed.

Lemma map_sat_update_evolves (l : list Satellite) : sats_evolve l (map sat_update l).
Proof.
  induction l; simpl; constructor; [apply sat_update_evolves | assumption].
Qed.

Lemma count_active_evolve (l l' : list Satellite) :
  sats_evolve l l' -> (count_active l' <= count_active l)%nat.
Proof.
  unfold count_active. induction 1 as [|a b l l' [_ Hab] _ IH]; simpl; [lia|].
  destruct (sat_active b) eqn:Eb.
  - rewrite (Hab eq_refl). simpl. lia.
  - destruct (sat_active a); simpl; lia.
Qed.

(** What one step of the collision pass may change. *)
Definition pass_rel (a b : Simulation) : Prop :=
  sats_evolve (satellites a) (satellites b) /\
  (collisions a <= collisions b)%nat /\
  (exists l, events b = events a ++ l) /\
  score b = score a /\
  List.length (debris_list b) = List.length (debris_list a).

Lemma pass_rel_refl (a : Simulation) : pass_rel a a.
Proof.
  repeat split; try apply sats_evolve_refl; try lia.
  exists []. rewrite app_nil_r. reflexivity.
Qed.

Lemma pass_rel_trans (a b c : Simulation) : pass_rel a b -> pass_rel b c -> pass_rel a c.
Proof.
  intros (H1 & H2 & [l1 H3] & H4 & H5) (H1' & H2' & [l2 H3'] & H4' & H5').
  repeat split.
  - eapply sats_evolve_trans; eassumption.
  - lia.
  - exists (l1 ++ l2). rewrite H3', H3, app_assoc. reflexivity.
  - congruence.
  - congruence.
Qed.

Lemma sat_debris_step_rel (st : Simulation) (si di : nat) :
  pass_rel st (sat_debris_step st si di).
Proof.
  unfold sat_debris_step.
  destruct (nth_error (satellites st) si), (nth_error (debris_list st) di);
    try apply pass_rel_refl.
  destruct (check_collision _ _); [|destruct (check_proximity_warning _ _ _)];
    try apply pass_rel_refl; repeat split; simpl;
    try apply sats_evolve_refl; try apply update_nth_deactivate_evolves;
    try apply update_nth_length; try lia; eexists; reflexivity.
Qed.

Lemma sat_pair_step_rel (st : Simulation) (si sj : nat) :
  pass_rel st (sat_pair_step st si sj).
Proof.
  unfold sat_pair_step.
  destruct (nth_error (satellites st) si), (nth_error (satellites st) sj);
    try apply pass_rel_refl.
  destruct (check_collision _ _); [|apply pass_rel_refl].
  repeat split; simpl; try lia; [|eexists; reflexivity].
  eapply sats_evolve_trans; apply update_nth_deactivate_evolves.
Qed.

Lemma fold_pass_rel {A : Type} (f : Simulation -> A -> Simulation) :
  (forall st a, pass_rel st (f st a)) ->
  forall l st, pass_rel st (fold_left f l st).
Proof.
  intros Hf l. induction l as [|a l IH]; intros st; simpl.
  - apply pass_rel_refl.
  - eapply pass_rel_trans; [apply Hf | apply IH].
Qed.

Lemma check_all_collisions_rel (st : Simulation) :
  pass_rel st (check_all_collisions st).
Proof.
  unfold check_all_collisions. cbv zeta.
  eapply pass_rel_trans; [apply (fold_pass_rel (A:=nat))|].
  - intros st' si. apply (fold_pass_rel (A:=nat)). intros st'' di.
    apply sat_debris_step_rel.
  - apply (fold_pass_rel (A:=nat)). intros st' i.
    apply (fold_pass_rel (A:=nat)). intros st'' j. apply sat_pair_step_rel.
Qed.

Lemma tick_stages (s : Simulation) (rnd : R) (g : GenDraws) :
  game_over s = false ->
  tick s rnd g =
    score_and_game_over (cleanup_out_of_bounds (check_all_collisions
      (maybe_spawn (update_all (set_tick_count s (S (tick_count s)))) rnd g))).
Proof. intros H. unfold tick. rewrite H. reflexivity. Qed.

Lemma maybe_spawn_fields (s : Simulation) (rnd : R) (g : GenDraws) :
  satellites (maybe_spawn s rnd g) = satellites s /\
  collisions (maybe_spawn s rnd g) = collisions s /\
  events (maybe_spawn s rnd g) = events s /\
  score (maybe_spawn s rnd g) = score s.
Proof.
  unfold maybe_spawn. destruct (rlt _ _); [destruct (generate _ _)|]; auto.
Qed.

Lemma score_and_game_over_fields (s : Simulation) :
  satellites (score_and_game_over s) = satellites s /\
  debris_list (score_and_game_over s) = debris_list s /\
  collisions (score_and_game_over s) = collisions s /\
  events (score_and_game_over s) = events s /\
  score (score_and_game_over s) = (score s + count_active (satellites s))%nat.
Proof.
  unfold score_and_game_over. destruct (_ && _); simpl; auto.
Qed.

(* Shared by the statements below. *)
Lemma cleanup_filter_in (st : Simulation) (d : Debris) :
  satellites (cleanup_out_of_bounds st) = satellites st /\
  (In d (debris_list (cleanup_out_of_bounds st)) <->
     In d (debris_list st) /\ deb_active d = true /\
     -50 < x (deb_obj d) < AREA_WIDTH + 50 /\ -50 < y (deb_obj d) < AREA_HEIGHT + 50).
Proof.
  split; [reflexivity|]. unfold cleanup_out_of_bounds. simpl.
  rewrite filter_In, !Bool.andb_true_iff, !rlt_iff. tauto.
Qed.

(** A tick never removes, reorders or renames a satellite and never
    reactivates one: the satellite list after the tick has the same length
    and names, and each satellite is active afterwards only if it was
    before; so the number of active satellites never grows. *)
Theorem tick_satellites_evolve (s : Simulation) (rnd : R) (g : GenDraws) :
  sats_evolve (satellites s) (satellites (tick s rnd g)) /\
  (count_active (satellites (tick s rnd g)) <= count_active (satellites s))%nat.
Proof.
  assert (H : sats_evolve (satellites s) (satellites (tick s rnd g))).
  { destruct (game_over s) eqn:Eg.
    - unfold tick. rewrite Eg. apply sats_evolve_refl.
    - rewrite (tick_stages s rnd g Eg).
      rewrite (proj1 (score_and_game_over_fields _)).
      simpl. eapply sats_evolve_trans; [|apply check_all_collisions_rel].
      rewrite (proj1 (maybe_spawn_fields _ _ _)). simpl.
      apply map_sat_update_evolves. }
  split; [exact H | apply count_active_evolve, H].
Qed.

(* Shared by the statements below. *)
Lemma tick_counters_grow_aux (s : Simulation) (rnd : R) (g : GenDraws) :
  (collisions s <= collisions (tick s rnd g))%nat /\
  exists l, events (tick s rnd g) = events s ++ l.
Proof.
  destruct (game_over s) eqn:Eg.
  - unfold tick. rewrite Eg. split; [lia | exists []; rewrite app_nil_r; reflexivity].
  - rewrite (tick_stages s rnd g Eg).
    destruct (score_and_game_over_fields
      (cleanup_out_of_bounds (check_all_collisions
        (maybe_spawn (update_all (set_tick_count s (S (tick_count s)))) rnd g))))
      as (_ & _ & -> & -> & _).
    simpl.
    destruct (check_all_collisions_rel
      (maybe_spawn (update_all (set_tick_count s (S (tick_count s)))) rnd g))
      as (_ & H2 & H3 & _).
    destruct (maybe_spawn_fields
      (update_all (set_tick_count s (S (tick_count s)))) rnd g) as (_ & E2 & E3 & _).
    rewrite E2 in H2. rewrite E3 in H3. simpl in H2, H3. split; assumption.
Qed.

(** A tick of a running game adds to the score the number of satellites
    still active at its end. *)
Theorem tick_score (s : Simulation) (rnd : R) (g : GenDraws) :
  game_over s = false ->
  score (tick s rnd g) = (score s + count_active (satellites (tick s rnd g)))%nat.
Proof.
  intros Eg. rewrite (tick_stages s rnd g Eg).
  destruct (score_and_game_over_fields
    (cleanup_out_of_bounds (check_all_collisions
      (maybe_spawn (update_all (set_tick_count s (S (tick_count s)))) rnd g))))
    as (-> & _ & _ & _ & ->).
  simpl. f_equal.
  destruct (check_all_collisions_rel
    (maybe_spawn (update_all (set_tick_count s (S (tick_count s)))) rnd g))
    as (_ & _ & _ & H4 & _).
  rewrite H4, (proj2 (proj2 (proj2 (maybe_spawn_fields _ _ _)))). reflexivity.
Qed.

Lemma tick_score_witness :
  score (tick two_sats 0.9 idle_draws) =
    (score two_sats + count_active (satellites (tick two_sats 0.9 idle_draws)))%nat.
Proof. apply tick_score. reflexivity. Defined.

(* Shared by the statements below. *)
Lemma tick_debris_aux (s : Simulation) (rnd : R) (g : GenDraws) (d : Debris) :
  game_over s = false -> In d (debris_list (tick s rnd g)) ->
  deb_active d = true /\
  -50 < x (deb_obj d) < AREA_WIDTH + 50 /\ -50 < y (deb_obj d) < AREA_HEIGHT + 50.
Proof.
  intros Eg Hin. rewrite (tick_stages s rnd g Eg) in Hin.
  rewrite (proj1 (proj2 (score_and_game_over_fields _))) in Hin.
  apply (proj2 (cleanup_filter_in _ d)) in Hin. tauto.
Qed.

Lemma deorbit_loop_debris (nm : string) (l : list Satellite) (k : nat) (st : Simulation) :
  debris_list (fst (deorbit_loop nm k l st)) = debris_list st.
Proof.
  revert k. induction l as [|sat l IH]; intros k; simpl; [reflexivity|].
  destruct (_ && _); [|apply IH].
  destruct (deorbit sat) as [sat' []]; reflexivity.
Qed.

(** Only [tick] touches the debris, and it ends with the cleanup: in every
    reachable state each debris is active and strictly inside the arena
    widened by [50]. *)
Theorem reachable_debris_in_arena (s : Simulation) (d : Debris) :
  reachable s -> In d (debris_list s) ->
  deb_active d = true /\
  -50 < x (deb_obj d) < AREA_WIDTH + 50 /\ -50 < y (deb_obj d) < AREA_HEIGHT + 50.
Proof.
  intros Hr. revert d. induction Hr; intros d Hin; simpl in Hin.
  - destruct Hin.
  - apply IHHr, Hin.
  - destruct (game_over s) eqn:Eg.
    + unfold tick in Hin. rewrite Eg in Hin. apply IHHr, Hin.
    + apply (tick_debris_aux s rnd g d Eg Hin).
  - unfold deorbit_satellite in Hin. rewrite deorbit_loop_debris in Hin.
    apply IHHr, Hin.
  - apply IHHr, Hin.
  - apply IHHr, Hin.
  - apply IHHr, Hin.
Qed.

(** The first tick of [Simulation()] that spawns the debris [D0] at the
    origin keeps it. *)
Lemma tick_init_spawn_debris :
  debris_list (tick init 0 left_corner_draws) = [D0].
Proof.
  unfold tick. change (game_over init) with false. cbv iota zeta.
  replace (maybe_spawn (update_all (set_tick_count init (S (tick_count init)))) 0
             left_corner_draws)
    with (mkSim [] [D0] (mkField AREA_WIDTH AREA_HEIGHT 1) 1 0 0 0 false []).
  2:{ unfold maybe_spawn, spawn_chance, py_min, update_all. cbn -[generate rlt].
      rewrite (rlt_false 0.3 (0.05 + 1 * 0.0005)), (rlt_true 0 (0.05 + 1 * 0.0005)) by lra.
      rewrite generate_left_corner. reflexivity. }
  change (check_all_collisions (mkSim [] [D0] (mkField AREA_WIDTH AREA_HEIGHT 1) 1 0 0 0 false []))
    with (mkSim [] [D0] (mkField AREA_WIDTH AREA_HEIGHT 1) 1 0 0 0 false []).
  unfold score_and_game_over, cleanup_out_of_bounds, D0, AREA_WIDTH, AREA_HEIGHT. simpl.
  split_cmp; simpl; try (exfalso; lra). reflexivity.
Qed.

Lemma reachable_debris_in_arena_witness :
  deb_active D0 = true /\
  -50 < x (deb_obj D0) < AREA_WIDTH + 50 /\ -50 < y (deb_obj D0) < AREA_HEIGHT + 50.
Proof.
  apply (reachable_debris_in_arena (tick init 0 left_corner_draws) D0).
  - apply r_tick; [apply r_init | unfold unit_draw; lra |].
    unfold valid_draws, unit_draw; simpl; repeat split; lra || lia.
  - rewrite tick_init_spawn_debris. left. reflexivity.
Defined.

Lemma update_nth_app {A} (f : A -> A) (pre post : list A) (a : A) :
  update_nth (List.length pre) f (pre ++ a :: post) = pre ++ f a :: post.
Proof. induction pre as [|b pre IH]; simpl; [reflexivity | rewrite IH; reflexivity]. Qed.

Lemma set_satellites_same (s : Simulation) : set_satellites s (satellites s) = s.
Proof. destruct s; reflexivity. Qed.

Lemma deorbit_loop_skip (nm : string) (pre l : list Satellite) (k : nat) (st : Simulation) :
  Forall (fun sat => sat_name sat = nm -> sat_active sat = false) pre ->
  deorbit_loop nm k (pre ++ l) st = deorbit_loop nm (k + List.length pre) l st.
Proof.
  intros H. revert k. induction H as [|sat pre Hsat _ IH]; intros k; simpl.
  - rewrite Nat.add_0_r. reflexivity.
  - destruct (String.eqb (sat_name sat) nm) eqn:E.
    + apply String.eqb_eq in E. rewrite (Hsat E). simpl.
      rewrite IH. f_equal. lia.
    + simpl. rewrite IH. f_equal. lia.
Qed.

(** [deorbit_satellite(name)] with no active satellite of that name returns
    [False] and changes nothing: no event, no counter. *)
Theorem deorbit_satellite_missing (s : Simulation) (nm : string) :
  (forall sat, In sat (satellites s) -> sat_name sat = nm -> sat_active sat = false) ->
  deorbit_satellite s nm = (s, false).
Proof.
  intros H. unfold deorbit_satellite.
  replace (satellites s) with (satellites s ++ []) at 1 by apply app_nil_r.
  rewrite deorbit_loop_skip by (apply Forall_forall; exact H). reflexivity.
Qed.

Lemma deorbit_satellite_missing_witness :
  deorbit_satellite (add_satellite init (new_satellite "ISS" 200 300 1.5 45 80)) "GPS-VII" =
    (add_satellite init (new_satellite "ISS" 200 300 1.5 45 80), false).
Proof.
  apply deorbit_satellite_missing. intros sat [<-|[]] Hn. discriminate Hn.
Defined.

(** [deorbit_satellite(name)] acts on the first active satellite of that
    name only: with less than [5] fuel it changes no satellite and no
    counter and appends the failure event; otherwise it replaces that
    satellite by its deorbited copy, adds [1] to the collision counter and
    appends the success event. *)
Theorem deorbit_satellite_first_match (s : Simulation) (nm : string)
    (pre post : list Satellite) (sat : Satellite) :
  satellites s = pre ++ sat :: post ->
  Forall (fun t => sat_name t = nm -> sat_active t = false) pre ->
  sat_name sat = nm -> sat_active sat = true ->
  deorbit_satellite s nm =
    if rlt (fuel sat) 5 then (append_event s (deorbit_fail_msg nm), false)
    else (append_event
            (set_collisions (set_satellites s (pre ++ fst (deorbit sat) :: post))
               (collisions s + 1))
            (deorbit_ok_msg nm), true).
Proof.
  intros Hs Hpre Hn Ha. unfold deorbit_satellite.
  rewrite Hs at 1. rewrite deorbit_loop_skip by exact Hpre. simpl.
  rewrite Hn, String.eqb_refl, Ha. simpl.
  unfold deorbit. destruct (rlt (fuel sat) 5) eqn:Ef; simpl.
  - rewrite Hs, update_nth_app, <- Hs, set_satellites_same, Hn. reflexivity.
  - rewrite Hs, update_nth_app. unfold sat_name in Hn |- *. simpl. rewrite Hn.
    reflexivity.
Qed.

(** A fleet where the first satellite named ["ISS"] is inactive, a
    ["Hubble"] comes next, then the active ["ISS"] with fuel [f], then a
    second active ["ISS"]. *)
Definition fleet_pre : list Satellite :=
  [sat_deactivate (new_satellite "ISS" 0 0 1 0 80); new_satellite "Hubble" 500 150 1 180 60].

Definition fleet_iss (f : R) : Satellite := new_satellite "ISS" 200 300 1.5 45 f.

Definition fleet_post : list Satellite := [new_satellite "ISS" 10 10 1 0 50].

Definition fleet (f : R) : Simulation :=
  mkSim (fleet_pre ++ fleet_iss f :: fleet_post) [] (mkField AREA_WIDTH AREA_HEIGHT 0)
    0 0 0 0 false [].

Lemma fleet_pre_skipped :
  Forall (fun t => sat_name t = "ISS"%string -> sat_active t = false) fleet_pre.
Proof.
  constructor; [intros _; reflexivity|].
  constructor; [intros H; discriminate H | constructor].
Qed.

Lemma deorbit_satellite_first_match_witness :
  deorbit_satellite (fleet 80) "ISS" =
    (append_event
       (set_collisions (set_satellites (fleet 80)
          (fleet_pre ++ fst (deorbit (fleet_iss 80)) :: fleet_post)) 1)
       (deorbit_ok_msg "ISS"), true) /\
  deorbit_satellite (fleet 3) "ISS" =
    (append_event (fleet 3) (deorbit_fail_msg "ISS"), false).
Proof.
  split.
  - rewrite (deorbit_satellite_first_match (fleet 80) "ISS" fleet_pre fleet_post (fleet_iss 80)
               eq_refl fleet_pre_skipped eq_refl eq_refl).
    rewrite (rlt_false (fuel (fleet_iss 80)) 5) by (simpl; lra). reflexivity.
  - rewrite (deorbit_satellite_first_match (fleet 3) "ISS" fleet_pre fleet_post (fleet_iss 3)
               eq_refl fleet_pre_skipped eq_refl eq_refl).
    rewrite (rlt_true (fuel (fleet_iss 3)) 5) by (simpl; lra). reflexivity.
Defined.

(** The spawn chance [min(0.05 + tick * 0.0005, 0.3)] starts at [0.05],
    never decreases with the tick count and stays at [0.3] from tick [500]
    on. *)
Theorem spawn_chance_ramp :
  (forall n, 0.05 <= spawn_chance n <= 0.3) /\
  (forall n m, (n <= m)%nat -> spawn_chance n <= spawn_chance m) /\
  (forall n, (500 <= n)%nat -> spawn_chance n = 0.3).
Proof.
  unfold spawn_chance, py_min. split; [|split].
  - intros n. pose proof (pos_INR n). split_cmp; lra.
  - intros n m Hnm. apply le_INR in Hnm. pose proof (pos_INR n). split_cmp; lra.
  - intros n Hn. apply le_INR in Hn.
    assert (E : INR 500 = 500) by (rewrite INR_IZR_INZ; reflexivity).
    rewrite E in Hn. split_cmp; lra.
Qed.

Lemma spawn_chance_ramp_witness :
  spawn_chance 3 <= spawn_chance 7 /\ spawn_chance 600 = 0.3.
Proof.
  destruct spawn_chance_ramp as (_ & H2 & H3). split.
  - apply H2. lia.
  - apply H3. lia.
Defined.

(** [DebrisField.generate] with draws in [[0, 1)]: the counter grows by
    one, the new debris is active, of size ["small"], ["medium"] or
    ["large"], with a speed in [[1, 3]], and starts on the drawn edge of
    the field with a heading in that edge's range.  The ranges are closed,
    as [random.uniform(a, b)] may round to [b]. *)
Theorem generate_on_edge (f : DebrisField) (g : GenDraws) :
  valid_draws g -> 0 <= field_width f -> 0 <= field_height f ->
  let d := fst (generate f g) in
  let o := deb_obj d in
  snd (generate f g) = mkField (field_width f) (field_height f) (S (counter f)) /\
  active o = true /\
  (size d = "small" \/ size d = "medium" \/ size d = "large")%string /\
  1 <= speed o <= 3 /\
  match g_side g with
  | top => y o = 0 /\ 0 <= x o <= field_width f /\ 150 <= angle o <= 210
  | bottom => y o = field_height f /\ 0 <= x o <= field_width f /\ -30 <= angle o <= 30
  | left => x o = 0 /\ 0 <= y o <= field_height f /\ -45 <= angle o <= 45
  | right => x o = field_width f /\ 0 <= y o <= field_height f /\ 135 <= angle o <= 225
  end.
Proof.
  destruct g as [side u_pos u_an u_sz u_sp k].
  unfold valid_draws, unit_draw. simpl. intros (Hp & Ha & Hz & Hs & _) HW HH.
  assert (Hsize : forall v, choose_size v = "small"%string \/ choose_size v = "medium"%string
                   \/ choose_size v = "large"%string).
  { intros v. unfold choose_size. destruct (rlt _ 60); [|destruct (rlt _ 90)]; auto. }
  destruct side; simpl; unfold uniform;
    (split; [reflexivity|]); (split; [reflexivity|]); (split; [apply Hsize|]);
    repeat split; nra.
Qed.

Lemma generate_on_edge_witness :
  let d := fst (generate (mkField AREA_WIDTH AREA_HEIGHT 0) left_corner_draws) in
  let o := deb_obj d in
  snd (generate (mkField AREA_WIDTH AREA_HEIGHT 0) left_corner_draws) =
    mkField AREA_WIDTH AREA_HEIGHT 1 /\
  active o = true /\
  (size d = "small" \/ size d = "medium" \/ size d = "large")%string /\
  1 <= speed o <= 3 /\
  x o = 0 /\ 0 <= y o <= AREA_HEIGHT /\ -45 <= angle o <= 45.
Proof.
  apply (generate_on_edge (mkField AREA_WIDTH AREA_HEIGHT 0) left_corner_draws).
  - unfold valid_draws, unit_draw; simpl; repeat split; lra || lia.
  - unfold AREA_WIDTH; simpl; lra.
  - unfold AREA_HEIGHT; simpl; lra.
Defined.



(** Collision detection does not depend on the order of its arguments:
    [distance_to] and [check_collision] are symmetric. *)
Theorem collision_symmetric (e1 e2 : Entity) :
  distance_to (entity_obj e1) (entity_obj e2) = distance_to (entity_obj e2) (entity_obj e1) /\
  check_collision e1 e2 = check_collision e2 e1.
Proof.
  assert (Hd : forall a b, distance_to a b = distance_to b a).
  { intros a b. unfold distance_to. f_equal. ring. }
  split; [apply Hd|].
  unfold check_collision. rewrite Hd. destruct e1, e2; reflexivity.
Qed.

Lemma danger_radius_le_40 (d : Debris) : danger_radius d <= 40.
Proof.
  unfold danger_radius.
  destruct (String.eqb _ "small"); [lra|].
  destruct (String.eqb _ "medium"); [lra|].
  destruct (String.eqb _ "large"); lra.
Qed.

(** Every collision of a satellite is within the default warning distance
    [80]: the collision thresholds are at most [20 + 40]. *)
Theorem collision_within_warning (sat : Satellite) (e : Entity) :
  check_collision (ESat sat) e = true -> check_proximity_warning sat e 80 = true.
Proof.
  unfold check_collision, check_proximity_warning, SATELLITE_RADIUS. simpl.
  destruct e as [s2|d]; simpl; rewrite !rlt_iff; intros H.
  - lra.
  - pose proof (danger_radius_le_40 d). lra.
Qed.

Definition sat_origin : Satellite := new_satellite "S1" 0 0 0 0 100.

Lemma sat_origin_self_collision : check_collision (ESat sat_origin) (ESat sat_origin) = true.
Proof.
  unfold check_collision, distance_to, SATELLITE_RADIUS. simpl.
  apply rlt_true. rewrite (sqrt_of_square _ 0) by (lra || ring). lra.
Qed.

Lemma collision_within_warning_witness :
  check_proximity_warning sat_origin (ESat sat_origin) 80 = true.
Proof. apply collision_within_warning, sat_origin_self_collision. Defined.

Lemma update_status_fuel (s : Satellite) : fuel (update_status s) = Rmax 0 (fuel s).
Proof. unfold update_status, Rmax. split_cmp; simpl; lra. Qed.

(** Fuel costs: [change_angle] does nothing without fuel and otherwise
    burns [2] (the fuel is then clamped at [0]); [update()] leaves an
    inactive satellite as it is and burns [0.1] of an active one. *)
Theorem fuel_costs (s : Satellite) (a : R) :
  (fuel s <= 0 -> change_angle s a = s) /\
  (0 < fuel s -> fuel (change_angle s a) = Rmax 0 (fuel s - 2)) /\
  (sat_active s = false -> sat_update s = s) /\
  (sat_active s = true -> fuel (sat_update s) = Rmax 0 (fuel s - 0.1)).
Proof.
  repeat split; intros H.
  - unfold change_angle. rewrite (rle_true _ _ H). reflexivity.
  - unfold change_angle. rewrite (rle_false _ _ H). rewrite update_status_fuel. reflexivity.
  - destruct (sat_update_cases s) as [[Ha _]|[_ E]]; [congruence | exact E].
  - destruct (sat_update_cases s) as [[_ E]|[Ha _]]; [|congruence].
    rewrite E, update_status_fuel. reflexivity.
Qed.

Lemma fuel_costs_witness :
  change_angle (new_satellite "A" 0 0 1 0 0) 90 = new_satellite "A" 0 0 1 0 0 /\
  fuel (change_angle (new_satellite "ISS" 200 300 1.5 45 80) 90) = Rmax 0 (80 - 2) /\
  sat_update (sat_deactivate (new_satellite "ISS" 200 300 1.5 45 80)) =
    sat_deactivate (new_satellite "ISS" 200 300 1.5 45 80) /\
  fuel (sat_update (new_satellite "ISS" 200 300 1.5 45 80)) = Rmax 0 (80 - 0.1).
Proof.
  split; [|split; [|split]].
  - apply (fuel_costs (new_satellite "A" 0 0 1 0 0) 90). simpl. lra.
  - apply (fuel_costs (new_satellite "ISS" 200 300 1.5 45 80) 90). simpl. lra.
  - apply (fuel_costs (sat_deactivate (new_satellite "ISS" 200 300 1.5 45 80)) 0).
    reflexivity.
  - apply (fuel_costs (new_satellite "ISS" 200 300 1.5 45 80) 0). reflexivity.
Defined.

(** Fuel is never gained: from a non-negative fuel, any sequence of
    [update()], [change_angle], [change_speed] and [deorbit()] ends with
    at most the starting fuel. *)
Theorem fuel_never_increases (s : Satellite) (ops : list SatOp) :
  0 <= fuel s -> fuel (run_ops s ops) <= fuel s.
Proof.
  unfold run_ops. revert s. induction ops as [|op ops IH]; intros s Hs; simpl; [lra|].
  assert (Hop : 0 <= fuel (apply_op s op) <= fuel s).
  { split; [apply apply_op_fuel_nonneg, Hs|].
    destruct op as [| a | v |]; simpl.
    - destruct (sat_update_cases s) as [[_ E]|[_ E]]; rewrite E; [|lra].
      rewrite update_status_fuel. simpl. unfold Rmax. destruct (Rle_dec _ _); lra.
    - unfold change_angle. destruct (rle (fuel s) 0); [lra|].
      rewrite update_status_fuel. simpl. unfold Rmax. destruct (Rle_dec _ _); lra.
    - unfold change_speed. destruct (rle (fuel s) 0); [lra|].
      rewrite update_status_fuel. simpl. unfold Rmax. destruct (Rle_dec _ _); lra.
    - unfold deorbit. destruct (negb _); simpl; lra. }
  specialize (IH (apply_op s op) (proj1 Hop)). lra.
Qed.

Lemma fuel_never_increases_witness :
  fuel (run_ops (new_satellite "ISS" 200 300 1.5 45 80)
          [OpUpdate; OpAngle 90; OpSpeed 3; OpDeorbit]) <= 80.
Proof. apply (fuel_never_increases (new_satellite "ISS" 200 300 1.5 45 80)). simpl. lra. Defined.

Lemma Int_part_unique (r : R) (k : Z) : IZR k <= r < IZR k + 1 -> Int_part r = k.
Proof.
  intros [H1 H2]. destruct (base_Int_part r) as [H3 H4].
  assert (A : (Int_part r - k < 1)%Z).
  { apply lt_IZR. rewrite minus_IZR. lra. }
  assert (B : (k - Int_part r < 1)%Z).
  { apply lt_IZR. rewrite minus_IZR. lra. }
  lia.
Qed.

(** [change_angle(a)] with fuel stores the representative of [a] modulo
    [360] in [[0, 360)]: [a - 360 k] for the integer [k] that puts it
    there. *)
Theorem change_angle_mod_360 (s : Satellite) (a : R) (k : Z) :
  0 < fuel s -> 0 <= a - 360 * IZR k < 360 ->
  angle (sat_obj (change_angle s a)) = a - 360 * IZR k.
Proof.
  intros Hf Hk. unfold change_angle. rewrite (rle_false _ _ Hf).
  rewrite update_status_obj. simpl. unfold py_mod.
  rewrite (Int_part_unique (a / 360) k); [reflexivity|].
  split; unfold Rdiv; lra.
Qed.

Lemma change_angle_mod_360_witness :
  angle (sat_obj (change_angle (new_satellite "ISS" 200 300 1.5 45 80) (-90))) =
    -90 - 360 * IZR (-1).
Proof. apply change_angle_mod_360; simpl; lra. Defined.

Lemma update_status_evolves (s : Satellite) : sat_evolves s (update_status s).
Proof.
  unfold sat_evolves, sat_name, sat_active. rewrite update_status_obj. split; auto.
Qed.

Lemma change_angle_evolves (s : Satellite) (a : R) : sat_evolves s (change_angle s a).
Proof.
  unfold change_angle. destruct (rle _ _); [apply sat_evolves_refl|].
  eapply sat_evolves_trans; [|apply update_status_evolves]. split; auto.
Qed.

Lemma change_speed_evolves (s : Satellite) (v : R) : sat_evolves s (change_speed s v).
Proof.
  unfold change_speed. destruct (rle _ _); [apply sat_evolves_refl|].
  eapply sat_evolves_trans; [|apply update_status_evolves]. split; auto.
Qed.

Lemma map_evolves (f : Satellite -> Satellite) (l : list Satellite) :
  (forall sat, sat_evolves sat (f sat)) -> sats_evolve l (map f l).
Proof. intros Hf. induction l; simpl; constructor; auto. Qed.

Lemma update_nth_set_evolves (l : list Satellite) (k : nat) (a b : Satellite) :
  nth_error l k = Some a -> sat_evolves a b -> sats_evolve l (update_nth k (fun _ => b) l).
Proof.
  revert k. induction l as [|c l IH]; intros [|k] Hk Hab; simpl in *; try discriminate.
  - injection Hk as ->. constructor; [exact Hab | apply sats_evolve_refl].
  - constructor; [apply sat_evolves_refl | apply IH; assumption].
Qed.

Lemma deorbit_loop_evolves (nm : string) (l : list Satellite) (k : nat) (st : Simulation) :
  (forall i sat, nth_error l i = Some sat -> nth_error (satellites st) (k + i) = Some sat) ->
  sats_evolve (satellites st) (satellites (fst (deorbit_loop nm k l st))).
Proof.
  revert k. induction l as [|sat l IH]; intros k Hl; simpl; [apply sats_evolve_refl|].
  destruct (_ && _).
  - assert (Hk : nth_error (satellites st) k = Some sat).
    { rewrite <- (Nat.add_0_r k). apply (Hl 0%nat). reflexivity. }
    assert (Hd : sat_evolves sat (fst (deorbit sat))).
    { unfold deorbit. destruct (negb _); [|apply sat_evolves_refl].
      split; [reflexivity | discriminate]. }
    destruct (deorbit sat) as [sat' ok]. simpl in Hd.
    assert (H : sats_evolve (satellites st) (update_nth k (fun _ => sat') (satellites st))).
    { apply (update_nth_set_evolves _ k sat); assumption. }
    destruct ok; exact H.
  - apply IH. intros i sat' Hi. replace (S k + i)%nat with (k + S i)%nat by lia.
    apply (Hl (S i)), Hi.
Qed.

(** The window's controls never bring a satellite back, nor rename,
    remove or reorder one: [_change_angle], [_change_speed],
    [deorbit_satellite] and [pop_events] keep the satellite list up to
    deactivations. *)
Theorem controls_never_reactivate (s : Simulation) (nm : string) (a v : R) :
  sats_evolve (satellites s) (satellites (ui_change_angle s nm a)) /\
  sats_evolve (satellites s) (satellites (ui_change_speed s nm v)) /\
  sats_evolve (satellites s) (satellites (fst (deorbit_satellite s nm))) /\
  sats_evolve (satellites s) (satellites (snd (pop_events s))).
Proof.
  repeat split.
  - apply map_evolves. intros sat. unfold ui_change_angle_sat.
    destruct (_ && _); [apply change_angle_evolves | apply sat_evolves_refl].
  - apply map_evolves. intros sat. unfold ui_change_speed_sat.
    destruct (_ && _); [apply change_speed_evolves | apply sat_evolves_refl].
  - apply deorbit_loop_evolves. intros i sat H. exact H.
  - apply sats_evolve_refl.
Qed.

(** [SpaceTrackerWindow._game_loop] on the simulation, the event log, the
    pause flag and whether the timer runs; [rnd] and [g] are the draws of
    the tick.  The drawing and the labels are left out. *)
Record Window := mkWindow {
  w_sim : Simulation;
  w_log : list string;
  w_paused : bool;
  w_timer : bool
}.

Definition game_over_msg : string := "GAME OVER - Tous les satellites perdus !".

Definition game_loop (w : Window) (rnd : R) (g : GenDraws) : Window :=
  if w_paused w || game_over (w_sim w) then
    if game_over (w_sim w) then
      mkWindow (w_sim w) (w_log w ++ [game_over_msg]) (w_paused w) false
    else w
  else
    let s1 := tick (w_sim w) rnd g in
    let '(evs, s2) := pop_events s1 in
    mkWindow s2 (w_log w ++ evs) (w_paused w) (w_timer w).

(** A frame of [_game_loop] in a running, unpaused game moves every pending
    event of the simulation, those of the tick last, to the log and leaves
    the queue empty; once the game is over a frame changes no part of the
    simulation and stops the timer. *)
Theorem game_loop_drains_events (w : Window) (rnd : R) (g : GenDraws) :
  (w_paused w = false -> game_over (w_sim w) = false ->
     events (w_sim (game_loop w rnd g)) = [] /\
     exists l, w_log (game_loop w rnd g) = w_log w ++ events (w_sim w) ++ l /\
               events (tick (w_sim w) rnd g) = events (w_sim w) ++ l) /\
  (game_over (w_sim w) = true ->
     w_sim (game_loop w rnd g) = w_sim w /\ w_timer (game_loop w rnd g) = false).
Proof.
  split.
  - intros Hp Hg. unfold game_loop. rewrite Hp, Hg. simpl. split; [reflexivity|].
    destruct (tick_counters_grow_aux (w_sim w) rnd g) as [_ [l Hl]].
    exists l. rewrite Hl. split; reflexivity.
  - intros Hg. unfold game_loop. rewrite Hg, Bool.orb_true_r. split; reflexivity.
Qed.

(** Events already queued ride through a tick untouched: the tick reads no
    event and only appends to the queue. *)
Definition with_pending (e : list string) (a : Simulation) : Simulation :=
  set_events a (e ++ events a).

Lemma sat_debris_step_pending (e : list string) (st : Simulation) (si di : nat) :
  sat_debris_step (with_pending e st) si di = with_pending e (sat_debris_step st si di).
Proof.
  destruct st. unfold sat_debris_step, with_pending. cbn -[check_collision check_proximity_warning].
  destruct (nth_error satellites0 si) as [a|], (nth_error debris_list0 di) as [b|];
    try reflexivity.
  destruct (check_collision (ESat a) (EDeb b));
    [|destruct (check_proximity_warning a (EDeb b) 80)];
    unfold append_event; cbn; rewrite ?app_assoc; reflexivity.
Qed.

Lemma sat_pair_step_pending (e : list string) (st : Simulation) (si sj : nat) :
  sat_pair_step (with_pending e st) si sj = with_pending e (sat_pair_step st si sj).
Proof.
  destruct st. unfold sat_pair_step, with_pending. cbn -[check_collision check_proximity_warning].
  destruct (nth_error satellites0 si) as [a|], (nth_error satellites0 sj) as [b|];
    try reflexivity.
  destruct (check_collision (ESat a) (ESat b)); unfold append_event; cbn; rewrite ?app_assoc;
    reflexivity.
Qed.

Lemma fold_pending {A : Type} (e : list string) (f : Simulation -> A -> Simulation) :
  (forall st a, f (with_pending e st) a = with_pending e (f st a)) ->
  forall l st, fold_left f l (with_pending e st) = with_pending e (fold_left f l st).
Proof.
  intros Hf l. induction l as [|a l IH]; intros st; simpl; [reflexivity|].
  rewrite Hf. apply IH.
Qed.

Lemma check_all_collisions_pending (e : list string) (st : Simulation) :
  check_all_collisions (with_pending e st) = with_pending e (check_all_collisions st).
Proof.
  unfold check_all_collisions. cbv zeta.
  change (satellites (with_pending e st)) with (satellites st).
  change (debris_list (with_pending e st)) with (debris_list st).
  rewrite (fold_pending e); [|intros st' si; apply (fold_pending e);
                              intros st'' di; apply sat_debris_step_pending].
  apply (fold_pending e). intros st' i. apply (fold_pending e).
  intros st'' j. apply sat_pair_step_pending.
Qed.

Lemma tick_pending (e : list string) (s : Simulation) (rnd : R) (g : GenDraws) :
  tick (with_pending e s) rnd g = with_pending e (tick s rnd g).
Proof.
  unfold tick. change (game_over (with_pending e s)) with (game_over s).
  destruct (game_over s); [reflexivity|].
  replace (maybe_spawn (update_all (set_tick_count (with_pending e s)
             (S (tick_count (with_pending e s))))) rnd g)
    with (with_pending e (maybe_spawn (update_all (set_tick_count s (S (tick_count s)))) rnd g)).
  2:{ destruct s. unfold maybe_spawn, update_all, with_pending. simpl.
      destruct (rlt _ _); [destruct (generate _ _)|]; reflexivity. }
  rewrite check_all_collisions_pending.
  generalize (check_all_collisions
    (maybe_spawn (update_all (set_tick_count s (S (tick_count s)))) rnd g)).
  intros st. destruct st. unfold score_and_game_over, cleanup_out_of_bounds, with_pending.
  simpl. destruct (_ && _); reflexivity.
Qed.

Lemma tick_two_sats_events :
  events (tick two_sats 0 left_corner_draws) =
    [collision_msg "S1" "Alpha-0"; alert_msg "Alpha-0" "S2"; pair_msg "S1" "S2"].
Proof.
  unfold tick. change (game_over two_sats) with false. cbv iota zeta.
  change (S (tick_count two_sats)) with 1%nat.
  rewrite first_tick_before_pass, first_tick_pass. reflexivity.
Qed.

(** A window whose simulation still holds an alert and whose next tick, the
    first one of [two_sats] drawing [left_corner_draws], raises three
    events. *)
Definition pending_window : Window :=
  mkWindow (with_pending [alert_msg "Beta-7" "S2"] two_sats) ["start"%string] false true.

Lemma game_loop_drains_events_witness :
  (events (w_sim (game_loop pending_window 0 left_corner_draws)) = [] /\
   w_log (game_loop pending_window 0 left_corner_draws) =
     ["start"%string; alert_msg "Beta-7" "S2"; collision_msg "S1" "Alpha-0";
      alert_msg "Alpha-0" "S2"; pair_msg "S1" "S2"]) /\
  (w_sim (game_loop (mkWindow (set_game_over init true) [] false true) 0.9 idle_draws) =
     set_game_over init true /\
   w_timer (game_loop (mkWindow (set_game_over init true) [] false true) 0.9 idle_draws) = false).
Proof.
  split.
  - destruct (proj1 (game_loop_drains_events pending_window 0 left_corner_draws)
                eq_refl eq_refl) as [H1 [l [H2 H3]]].
    split; [exact H1|].
    assert (El : l = [collision_msg "S1" "Alpha-0"; alert_msg "Alpha-0" "S2";
                      pair_msg "S1" "S2"]).
    { change (w_sim pending_window) with (with_pending [alert_msg "Beta-7" "S2"] two_sats)
        in H3.
      rewrite tick_pending in H3. unfold with_pending in H3.
      cbn [events set_events] in H3. rewrite tick_two_sats_events in H3.
      change (events two_sats) with (@nil string) in H3.
      simpl in H3. injection H3 as H3. symmetry. exact H3. }
    rewrite H2, El. reflexivity.
  - apply (game_loop_drains_events (mkWindow (set_game_over init true) [] false true)
             0.9 idle_draws); reflexivity.
Defined.


(** A tick never lowers the collision counter and only appends events. *)
Theorem tick_counters_grow (s : Simulation) (rnd : R) (g : GenDraws) :
  (collisions s <= collisions (tick s rnd g))%nat /\
  exists l, events (tick s rnd g) = events s ++ l.
Proof. apply tick_counters_grow_aux. Qed.

(** The debris a tick of a running game leaves are all active and strictly
    inside the arena widened by [50]. *)
Theorem tick_debris_in_arena (s : Simulation) (rnd : R) (g : GenDraws) (d : Debris) :
  game_over s = false -> In d (debris_list (tick s rnd g)) ->
  deb_active d = true /\
  -50 < x (deb_obj d) < AREA_WIDTH + 50 /\ -50 < y (deb_obj d) < AREA_HEIGHT + 50.
Proof. apply tick_debris_aux. Qed.

Lemma tick_debris_in_arena_witness :
  deb_active D0 = true /\
  -50 < x (deb_obj D0) < AREA_WIDTH + 50 /\ -50 < y (deb_obj D0) < AREA_HEIGHT + 50.
Proof.
  apply (tick_debris_in_arena init 0 left_corner_draws D0).
  - reflexivity.
  - rewrite tick_init_spawn_debris. left. reflexivity.
Defined.

End Extras.
